(** * Name service of the wallet extension: resolver chain, name cache,
      avatar resolution and gateway URL rewriting.

    Shallow embedding of [background/services/name/utils.ts] (the three
    resolver strategies), [background/services/name/index.ts] (the
    [NameService] class and the gateway helpers) and of the two accessors of
    [background/services/preferences/index.ts] the resolvers read.

    Conventions.
    - JavaScript strings are modelled as [string] (sequences of 8-bit
      characters); inputs are understood to be ASCII.
    - [Date.now()] and [UNIXTime] are integers, modelled as [Z].
    - [undefined] / [null] results are [None].
    - A [Record<string, T>] used as a dictionary is a [gmap string T]; keys
      are addresses and avatar references, never the name of a member of
      [Object.prototype] (see [own_key]).
    - An asynchronous method is a function of the service's state that
      gives the fate of its promise and the state it leaves. *)

From Stdlib Require Import ZArith Ascii String List Bool Lia Permutation.
From stdpp Require Import base option list gmap strings.

Local Open Scope string_scope.
Local Open Scope Z_scope.
Local Open Scope list_scope.

(** ** Regular expressions

    The source tests strings with regular-expression literals.  They are
    embedded as terms of [re], so that each literal can be compared with the
    source; matching is by derivatives. *)
Module RegExp.

Inductive re : Type :=
| Void
| Eps
| Cls (p : ascii → bool)
| Cat (r s : re)
| Alt (r s : re)
| Star (r : re).

(** The language of a regular expression. *)
Inductive Lang : re → string → Prop :=
| LEps : Lang Eps ""
| LCls p c : p c = true → Lang (Cls p) (String c "")
| LCat r s u v : Lang r u → Lang s v → Lang (Cat r s) (u +:+ v)
| LAltL r s u : Lang r u → Lang (Alt r s) u
| LAltR r s u : Lang s u → Lang (Alt r s) u
| LStar0 r : Lang (Star r) ""
| LStarS r u v : Lang r u → Lang (Star r) v → Lang (Star r) (u +:+ v).

Fixpoint nullable (r : re) : bool :=
  match r with
  | Void => false
  | Eps => true
  | Cls _ => false
  | Cat r s => nullable r && nullable s
  | Alt r s => nullable r || nullable s
  | Star _ => true
  end.

(** Constructors that drop [Void] and [Eps] operands, to keep derivatives
    small. *)
Definition cat (r s : re) : re :=
  match r, s with
  | Void, _ => Void
  | _, Void => Void
  | Eps, _ => s
  | _, _ => Cat r s
  end.

Definition alt (r s : re) : re :=
  match r, s with
  | Void, _ => s
  | _, Void => r
  | _, _ => Alt r s
  end.

Fixpoint deriv (c : ascii) (r : re) : re :=
  match r with
  | Void => Void
  | Eps => Void
  | Cls p => if p c then Eps else Void
  | Cat r s => alt (cat (deriv c r) s) (if nullable r then deriv c s else Void)
  | Alt r s => alt (deriv c r) (deriv c s)
  | Star r => cat (deriv c r) (Star r)
  end.

(** [matches r s]: the whole of [s] belongs to the language of [r]. *)
Fixpoint matches (r : re) (s : string) : bool :=
  match s with
  | EmptyString => nullable r
  | String c s => matches (deriv c r) s
  end.

(** *** Building blocks of the literals *)

Definition chr (c : ascii) : re := Cls (Ascii.eqb c).

Fixpoint lit (s : string) : re :=
  match s with
  | EmptyString => Eps
  | String c s => Cat (chr c) (lit s)
  end.

(** [r{0,n}] *)
Fixpoint upto (n : nat) (r : re) : re :=
  match n with
  | O => Eps
  | S n => Alt Eps (Cat r (upto n r))
  end.

(** [r{n}] followed by [k] *)
Fixpoint times (n : nat) (r k : re) : re :=
  match n with
  | O => k
  | S n => Cat r (times n r k)
  end.

(** [r{lo,hi}] *)
Definition range (lo hi : nat) (r : re) : re := times lo r (upto (hi - lo) r).

Definition in_range (lo hi : string) (c : ascii) : bool :=
  match lo, hi with
  | String l _, String h _ =>
      (nat_of_ascii l <=? nat_of_ascii c)%nat && (nat_of_ascii c <=? nat_of_ascii h)%nat
  | _, _ => false
  end.

(** [[a-zA-Z0-9]] *)
Definition alnum (c : ascii) : bool :=
  in_range "a" "z" c || in_range "A" "Z" c || in_range "0" "9" c.

(** [[a-zA-Z0-9-]] *)
Definition alnum_dash (c : ascii) : bool := alnum c || Ascii.eqb c "-".

(** The character class of [.] without the [s] flag: anything but the line
    terminators (of which only LF and CR are 8-bit characters). *)
Definition dot (c : ascii) : bool :=
  negb (Ascii.eqb c "010" || Ascii.eqb c "013").

Definition any : re := Cls (λ _, true).

(** *** How a literal is applied

    [str.match(/^r$/)] succeeds when the whole string matches, [/^r/] when a
    prefix does, [/r$/] when a suffix does. *)
Definition test_whole (r : re) (s : string) : bool := matches r s.
Definition test_prefix (r : re) (s : string) : bool := matches (Cat r (Star any)) s.
Definition test_suffix (r : re) (s : string) : bool := matches (Cat (Star any) r) s.

End RegExp.

(** ** Strings and numbers of the host language *)
Module JS.

Definition lower (c : ascii) : ascii :=
  if RegExp.in_range "A" "Z" c then ascii_of_nat (nat_of_ascii c + 32) else c.

(** [String.prototype.toLowerCase] *)
Fixpoint toLowerCase (s : string) : string :=
  match s with
  | EmptyString => EmptyString
  | String c s => String (lower c) (toLowerCase s)
  end.

(** [str.split(/[...]/)] for a separator that is one character of a class.
    The result is never empty: a string without separator is returned
    whole, and a trailing separator leaves an empty last piece. *)
Fixpoint split (sep : ascii → bool) (s : string) : list string :=
  match s with
  | EmptyString => [""]
  | String c s =>
      if sep c then "" :: split sep s
      else match split sep s with
           | [] => [String c ""]
           | w :: ws => String c w :: ws
           end
  end.

(** Truthiness of a [string | undefined | null] value: only a non-empty
    string is truthy. *)
Definition truthy (v : option string) : option string :=
  match v with
  | Some EmptyString => None
  | _ => v
  end.

Definition is_white (c : ascii) : bool :=
  let n := nat_of_ascii c in
  ((9 <=? n)%nat && (n <=? 13)%nat) || (n =? 32)%nat.

Fixpoint trimStart (s : string) : string :=
  match s with
  | String c s' => if is_white c then trimStart s' else s
  | EmptyString => EmptyString
  end.

Definition trim (s : string) : string :=
  String.rev (trimStart (String.rev (trimStart s))).

Definition digit_value (c : ascii) : option Z :=
  let n := Z.of_nat (nat_of_ascii c) in
  if RegExp.in_range "0" "9" c then Some (n - 48)
  else if RegExp.in_range "a" "z" c then Some (n - 87)
  else if RegExp.in_range "A" "Z" c then Some (n - 55)
  else None.

Fixpoint digits (base acc : Z) (s : string) : option Z :=
  match s with
  | EmptyString => Some acc
  | String c s =>
      match digit_value c with
      | Some v => if v <? base then digits base (acc * base + v) s else None
      | None => None
      end
  end.

(** One digit at least. *)
Definition number (base : Z) (s : string) : option Z :=
  match s with
  | EmptyString => None
  | _ => digits base 0 s
  end.

(** [BigInt(str)]: the language's string-to-BigInt conversion.  [None] is
    the [SyntaxError] it raises.  White space is trimmed, the empty string
    is zero, a sign is accepted before decimal digits only, and the
    prefixes [0x], [0o] and [0b] select the base. *)
Definition BigInt (s : string) : option Z :=
  match trim s with
  | EmptyString => Some 0
  | String "0" (String "x" ds) | String "0" (String "X" ds) => number 16 ds
  | String "0" (String "o" ds) | String "0" (String "O" ds) => number 8 ds
  | String "0" (String "b" ds) | String "0" (String "B" ds) => number 2 ds
  | String "+" ds => number 10 ds
  | String "-" ds => Z.opp <$> number 10 ds
  | ds => number 10 ds
  end.

End JS.

(** Every character of [w] is in the class [p]. *)
Fixpoint all_in (p : ascii → bool) (w : string) : bool :=
  match w with
  | EmptyString => true
  | String c w => p c && all_in p w
  end.

(** ** The platform's [URL] class

    A model of the URL record of the platform (scheme, host, path, query,
    fragment) with the getters and setters the source uses, after the URL
    Standard.  Credentials and port, which the source neither reads nor
    sets, are not part of the record. *)
Module URL.

Record t : Type := mk {
  scheme : string;
  host : option string;
  (** An opaque path is the path of a URL such as [mailto:x], which has
      neither host nor leading slash. *)
  opaque : bool;
  path : string;
  query : option string;
  fragment : option string;
}.

#[global] Instance t_eq_dec : EqDecision t.
Proof. solve_decision. Defined.

Definition is_special (scheme : string) : bool :=
  bool_decide (scheme ∈ ["ftp"; "file"; "http"; "https"; "ws"; "wss"]).

(** *** Getters *)

(** The [protocol] getter is the scheme followed by [":"]. *)
Definition protocol (u : t) : string := scheme u +:+ ":".

Definition hostname (u : t) : string := default "" (host u).

Definition pathname (u : t) : string := path u.

Definition starts_with (p s : string) : bool :=
  String.eqb (String.substring 0 (String.length p) s) p.

(** The serialisation ([href], [toString]).  A path that begins with two
    slashes is kept apart from the scheme by [/.] when there is no host. *)
Definition href (u : t) : string :=
  scheme u +:+ ":"
  +:+ match host u with
      | Some h => "//" +:+ h
      | None => if negb (opaque u) && starts_with "//" (path u) then "/." else ""
      end
  +:+ path u
  +:+ match query u with Some q => "?" +:+ q | None => "" end
  +:+ match fragment u with Some f => "#" +:+ f | None => "" end.

(** *** Characters *)

Definition code (c : ascii) : nat := nat_of_ascii c.

Definition is_slash (c : ascii) : bool := Ascii.eqb c "/".

Definition is_backslash (c : ascii) : bool := Ascii.eqb c "\".

(** ASCII tab or newline *)
Definition tab_or_newline (c : ascii) : bool :=
  bool_decide (code c ∈ [9; 10; 13]%nat).

(** C0 control or space *)
Definition c0_or_space (c : ascii) : bool := (code c <=? 32)%nat.

Fixpoint remove (p : ascii → bool) (s : string) : string :=
  match s with
  | EmptyString => EmptyString
  | String c s => if p c then remove p s else String c (remove p s)
  end.

Fixpoint drop_while (p : ascii → bool) (s : string) : string :=
  match s with
  | String c s' => if p c then drop_while p s' else s
  | EmptyString => EmptyString
  end.

(** The input without leading and trailing C0 controls and spaces, and
    without any tab or newline. *)
Definition clean (input : string) : string :=
  remove tab_or_newline
    (String.rev (drop_while c0_or_space (String.rev (drop_while c0_or_space input)))).

(** *** Percent-encoding *)

Definition hex (n : nat) : ascii :=
  ascii_of_nat (if (n <? 10)%nat then 48 + n else 55 + n).

(** [%XX], the two hexadecimal digits in upper case *)
Definition percent (c : ascii) : string :=
  String "%" (String (hex (code c / 16)) (String (hex (code c mod 16)) "")).

(** The percent-encode sets.  C0 control: the C0 controls and all that is
    above [~].  Fragment: also space, the double quote, [<], [>] and the
    backquote.  Query: also space, the double quote, [#], [<] and [>]; for
    a special scheme the single quote too.  Path: the query set and [?],
    [^], the backquote, [{] and [}]. *)
Definition c0_control_set (c : ascii) : bool :=
  (code c <? 32)%nat || (126 <? code c)%nat.

Definition fragment_set (c : ascii) : bool :=
  c0_control_set c || bool_decide (code c ∈ [32; 34; 60; 62; 96]%nat).

Definition query_set (c : ascii) : bool :=
  c0_control_set c || bool_decide (code c ∈ [32; 34; 35; 60; 62]%nat).

Definition special_query_set (c : ascii) : bool :=
  query_set c || (code c =? 39)%nat.

Definition path_set (c : ascii) : bool :=
  query_set c || bool_decide (code c ∈ [63; 94; 96; 123; 125]%nat).

Definition encode_char (set : ascii → bool) (c : ascii) : string :=
  if set c then percent c else String c "".

Fixpoint encode (set : ascii → bool) (s : string) : string :=
  match s with
  | EmptyString => EmptyString
  | String c s => encode_char set c +:+ encode set s
  end.

(** *** The path state of the parser *)

Definition single_dot (segment : string) : bool :=
  bool_decide (JS.toLowerCase segment ∈ ["."; "%2e"]).

Definition double_dot (segment : string) : bool :=
  bool_decide (JS.toLowerCase segment ∈ [".."; ".%2e"; "%2e."; "%2e%2e"]).

Definition is_alpha (c : ascii) : bool :=
  RegExp.in_range "a" "z" c || RegExp.in_range "A" "Z" c.

(** A Windows drive letter, as [C:] or [C|]; the normalized one has the
    colon. *)
Definition drive_letter (normalized : bool) (segment : string) : bool :=
  match segment with
  | String a (String b EmptyString) =>
      is_alpha a && (Ascii.eqb b ":" || (negb normalized && Ascii.eqb b "|"))
  | _ => false
  end.

(** The path, a list of segments, without its last segment; the drive
    letter of a [file] URL stays. *)
Definition shorten (scheme : string) (segments : list string) : list string :=
  match segments with
  | [segment] =>
      if String.eqb scheme "file" && drive_letter true segment then segments else []
  | _ => removelast segments
  end.

(** The end of a segment, at a slash or, with [at_end], at the end of the
    input. *)
Definition close_segment (scheme : string) (buffer : string) (at_end : bool)
    (segments : list string) : list string :=
  if double_dot buffer then
    let segments := shorten scheme segments in
    if at_end then segments ++ [""] else segments
  else if single_dot buffer then
    if at_end then segments ++ [""] else segments
  else
    segments ++
      [match buffer, segments with
       | String a _, [] =>
           if String.eqb scheme "file" && drive_letter false buffer
           then String a ":" else buffer
       | _, _ => buffer
       end].

Fixpoint path_state (scheme : string) (input buffer : string)
    (segments : list string) : list string :=
  match input with
  | EmptyString => close_segment scheme buffer true segments
  | String c input =>
      if is_slash c || (is_special scheme && is_backslash c)
      then path_state scheme input "" (close_segment scheme buffer false segments)
      else path_state scheme input (buffer +:+ encode_char path_set c) segments
  end.

(** The path start state, on what follows the authority or, with
    [override], on the value given to the [pathname] setter. *)
Definition path_start (scheme : string) (host : option string) (override : bool)
    (input : string) : list string :=
  match input with
  | EmptyString =>
      if is_special scheme then [""]
      else if override && negb (bool_decide (is_Some host)) then [""] else []
  | String c rest =>
      path_state scheme
        (if is_slash c || (is_special scheme && is_backslash c) then rest else input)
        "" []
  end.

(** The serialisation of a path that is not opaque. *)
Definition path_string (segments : list string) : string :=
  foldr (λ segment s, "/" +:+ segment +:+ s) "" segments.

(** *** Hosts

    The model has the hosts made of letters, digits, [-], [.] and [_].  For
    a special scheme the host is a domain: the model has those whose
    labels are of 1 to 63 characters, 253 in all, with no label in [xn--]
    and the last label not a number (which would make it an IPv4
    address). *)

Definition host_char (c : ascii) : bool :=
  RegExp.alnum c || bool_decide (c ∈ ["-"; "."; "_"]%char).

Definition is_digit (c : ascii) : bool := RegExp.in_range "0" "9" c.

Definition is_hex_digit (c : ascii) : bool :=
  is_digit c || RegExp.in_range "a" "f" c || RegExp.in_range "A" "F" c.

(** What the parser reads as a number: digits only, or [0x] and
    hexadecimal digits. *)
Definition numeric (label : string) : bool :=
  (negb (String.eqb label "") && all_in is_digit label)
  || match label with
     | String "0" (String x digits) =>
         (Ascii.eqb x "x" || Ascii.eqb x "X") && all_in is_hex_digit digits
     | _ => false
     end.

Definition domain (h : string) : option string :=
  let labels := JS.split (Ascii.eqb ".") h in
  if all_in host_char h
     && (String.length h <=? 253)%nat
     && forallb (λ label,
                   negb (String.eqb label "")
                   && (String.length label <=? 63)%nat
                   && negb (starts_with "xn--" (JS.toLowerCase label)))
                labels
     && negb (numeric (List.last labels ""))
  then Some (JS.toLowerCase h) else None.

(** *** Parsing

    [parse] is the constructor [new URL(str)] on the URLs of the model:
    no credentials, no port, a host as above, no [file] scheme, and an
    opaque path of printable characters.  Where it gives [Some], that is
    the URL the platform builds.  It gives [None] for every other string,
    be it one the platform rejects or a URL outside the model. *)

(** [cut p s]: the part of [s] before the first character in [p], and,
    when there is one, what follows that character. *)
Fixpoint cut (p : ascii → bool) (s : string) : string * option string :=
  match s with
  | EmptyString => ("", None)
  | String c s' =>
      if p c then ("", Some s')
      else let '(a, b) := cut p s' in (String c a, b)
  end.

(** [span p s]: the longest prefix of [s] in [p], and the rest. *)
Fixpoint span (p : ascii → bool) (s : string) : string * string :=
  match s with
  | EmptyString => ("", "")
  | String c s' =>
      if p c then let '(a, b) := span p s' in (String c a, b)
      else ("", s)
  end.

Definition scheme_re : RegExp.re :=
  RegExp.Cat (RegExp.Cls is_alpha)
    (RegExp.Star (RegExp.Cls (λ c, RegExp.alnum c || bool_decide (c ∈ ["+"; "-"; "."]%char)))).

Definition parse (input : string) : option t :=
  let '(before_hash, frag) := cut (Ascii.eqb "#") (clean input) in
  let '(before_query, qry) := cut (Ascii.eqb "?") before_hash in
  match cut (Ascii.eqb ":") before_query with
  | (_, None) => None
  | (sch, Some rest) =>
      if negb (RegExp.test_whole scheme_re sch) then None
      else
        let sch := JS.toLowerCase sch in
        let qry :=
          encode (if is_special sch then special_query_set else query_set) <$> qry in
        let frag := encode fragment_set <$> frag in
        let with_host h p :=
          mk sch (Some h) false (path_string (path_start sch (Some h) false p))
             qry frag in
        if String.eqb sch "file" then None
        else if is_special sch then
          let '(_, rest) := span (λ c, is_slash c || is_backslash c) rest in
          let '(h, p) := span (λ c, negb (is_slash c || is_backslash c)) rest in
          (λ h, with_host h p) <$> domain h
        else
          match rest with
          | String "/" (String "/" rest) =>
              let '(h, p) := span (λ c, negb (is_slash c)) rest in
              if all_in host_char h then Some (with_host h p) else None
          | String "/" _ =>
              Some (mk sch None false (path_string (path_start sch None false rest))
                      qry frag)
          | _ =>
              if all_in (RegExp.in_range "!" "~") rest
              then Some (mk sch None true rest qry frag) else None
          end
  end.

(** *** Setters *)

(** The [protocol] setter reads a scheme up to the first colon.  It does
    nothing when that is no scheme, when it would turn a special scheme
    into a non-special one or the reverse, or on a [file] URL with an empty
    host. *)
Definition set_protocol (value : string) (u : t) : t :=
  let '(sch, _) := cut (Ascii.eqb ":") (remove tab_or_newline value) in
  if negb (RegExp.test_whole scheme_re sch) then u
  else
    let sch := JS.toLowerCase sch in
    if bool_decide (is_special sch = is_special (scheme u))
       && negb (String.eqb (scheme u) "file" && bool_decide (host u = Some ""))
    then mk sch (host u) (opaque u) (path u) (query u) (fragment u)
    else u.

(** The [hostname] setter does nothing on a URL with an opaque path, nor
    when it is given the empty string for a special scheme other than
    [file].  The value is taken to be a host as the [hostname] getter gives
    it, which is what the source passes; a special scheme has it in lower
    case. *)
Definition set_hostname (value : string) (u : t) : t :=
  if opaque u then u
  else if is_special (scheme u) && negb (String.eqb (scheme u) "file")
          && String.eqb value ""
  then u
  else
    mk (scheme u)
       (Some (if is_special (scheme u) then JS.toLowerCase value else value))
       (opaque u) (path u) (query u) (fragment u).

(** The [pathname] setter does nothing on a URL with an opaque path;
    otherwise the value is parsed as a path: segments [.] and [..] are
    resolved and the characters of the path percent-encode set are
    encoded. *)
Definition set_pathname (value : string) (u : t) : t :=
  if opaque u then u
  else
    mk (scheme u) (host u) (opaque u)
       (path_string
          (path_start (scheme u) (host u) true (remove tab_or_newline value)))
       (query u) (fragment u).

End URL.

(** ** Data model *)

(** [networks.ts] is not among the sources; the service reads only the
    chain identifier of a network. *)
Record EVMNetwork : Type := { chainID : string }.

Record AddressOnNetwork : Type := {
  address : string;
  network : EVMNetwork;
}.

Inductive NameResolverSystem : Type := ENS | UNS | address_book | known_contracts.

(** [{ from: { addressNetwork }, resolved: { name, expiresAt }, system }] *)
Record ResolvedNameRecord : Type := {
  from_addressNetwork : AddressOnNetwork;
  resolved_name : string;
  resolved_expiresAt : Z;
  system : NameResolverSystem;
}.

(** [{ from: { name }, resolved: { addressNetwork }, system }] *)
Record ResolvedAddressRecord : Type := {
  ra_from_name : string;
  ra_resolved_addressNetwork : AddressOnNetwork;
  ra_system : NameResolverSystem;
}.

(** [{ from: { addressNetwork }, resolved: { avatar }, system }] *)
Record ResolvedAvatarRecord : Type := {
  rv_from_addressNetwork : AddressOnNetwork;
  rv_resolved_avatar : URL.t;
  rv_system : NameResolverSystem;
}.

(** The events of the service's emitter. *)
Inductive Event : Type :=
| resolvedAddress (r : ResolvedAddressRecord)
| resolvedName (r : ResolvedNameRecord)
| resolvedAvatar (r : ResolvedAvatarRecord).

#[global] Instance EVMNetwork_eq_dec : EqDecision EVMNetwork.
Proof. solve_decision. Defined.
#[global] Instance AddressOnNetwork_eq_dec : EqDecision AddressOnNetwork.
Proof. solve_decision. Defined.
#[global] Instance NameResolverSystem_eq_dec : EqDecision NameResolverSystem.
Proof. solve_decision. Defined.
#[global] Instance ResolvedNameRecord_eq_dec : EqDecision ResolvedNameRecord.
Proof. solve_decision. Defined.

(** ** Promises and collaborators *)

(** What a function of the service or of a collaborator can throw. *)
Inductive exn : Type :=
| Error (message : string)
| TypeError
| SyntaxError
| Fault (reason : string).

(** A settled promise, as [Promise.allSettled] reports it. *)
Inductive settled (A : Type) : Type :=
| fulfilled (value : A)
| rejected (reason : exn).
Arguments fulfilled {A} value.
Arguments rejected {A} reason.

(** [promise.then(f)] *)
Definition and_then {A B : Type} (f : A → B) (p : settled A) : settled B :=
  match p with
  | fulfilled value => fulfilled (f value)
  | rejected reason => rejected reason
  end.

(** The resolver object of a name ([provider.getResolver(name)]). *)
Record Resolver : Type := {
  getAddress : settled (option string);
  getText : string → settled (option string);
}.

(** The provider capability: what the chain answers to each request. *)
Record Provider : Type := {
  lookupAddress : string → settled (option string);
  resolveName : string → settled (option string);
  getResolver : string → settled (option Resolver);
}.

Record ChainService : Type := {
  providerForNetwork : EVMNetwork → option Provider;
  providers_ethereum : Provider;
}.

(** The two accessors of the preference service the resolvers read; each
    answers with the [evm] table of its result. *)
Record PreferenceService : Type := {
  getAddressBook : settled (gmap string string);
  getKnownContractNames : settled (gmap string string);
}.

Record ERC721Metadata : Type := { image : option string }.

(** Requests sent to collaborators, for the record of what a call of the
    service has asked. *)
Inductive Call : Type :=
| call_lookupAddress (address : string)
| call_getAddressBook
| call_getKnownContractNames
| call_resolveName (name : string)
| call_getResolver (name : string)
| call_getAddress
| call_getText (key : string)
| call_getTokenMetadata (erc721Address : string) (tokenID : Z).

#[global] Instance Call_eq_dec : EqDecision Call.
Proof. solve_decision. Defined.

(** An asynchronous function that has run up to its only [await]: the
    requests it has sent, and how it resumes once answered, given the value
    of [Date.now()] at that moment. *)
Record Started (A : Type) : Type := {
  requests : list Call;
  resume : Z → settled A;
}.
Arguments requests {A} _.
Arguments resume {A} _ _.

Definition NameResolverFunction : Type :=
  AddressOnNetwork → Started (option ResolvedNameRecord).

(** When the promises of one [lookUpName] call settle. *)
Record Schedule : Type := {
  (** [Date.now()] as the cache check reads it *)
  now_start : Z;
  (** the positions of the resolvers in the order in which they settle; one
      that is not listed never settles *)
  completion_order : list nat;
  (** [Date.now()] when the k-th of them settles *)
  now_at : nat → Z;
}.

(** ** The service's state *)

Record NameService : Type := {
  cachedEIP155AvatarURLs : gmap string URL.t;
  cachedResolvedNames : gmap string ResolvedNameRecord;
  (** events given to [this.emitter.emit], oldest first *)
  emitted : list Event;
  (** requests sent to collaborators, oldest first *)
  issued : list Call;
}.

(** How a call of an asynchronous method ends: its promise is fulfilled,
    rejected, or stays pending for ever. *)
Inductive completion (A : Type) : Type :=
| returns (value : A)
| throws (e : exn)
| never.
Arguments returns {A} value.
Arguments throws {A} e.
Arguments never {A}.

(** Methods run on the service's state and leave it changed, also when they
    throw. *)
Definition M (A : Type) : Type := NameService → completion A * NameService.

#[global] Instance M_ret : MRet M := λ A a this, (returns a, this).

#[global] Instance M_bind : MBind M := λ A B f m this,
  match m this with
  | (returns a, this') => f a this'
  | (throws e, this') => (throws e, this')
  | (never, this') => (never, this')
  end.

Definition throw {A : Type} (e : exn) : M A := λ this, (throws e, this).

Definition read : M NameService := λ this, (returns this, this).

Definition send (cs : list Call) : M unit := λ this,
  (returns tt,
   {| cachedEIP155AvatarURLs := cachedEIP155AvatarURLs this;
      cachedResolvedNames := cachedResolvedNames this;
      emitted := emitted this;
      issued := issued this ++ cs |}).

(** [this.emitter.emit(...)]: the event is handed to the subscribers, which
    run as tasks of their own (the constructor subscribes the avatar lookup
    to "resolvedName"); the model records the event. *)
Definition emit (e : Event) : M unit := λ this,
  (returns tt,
   {| cachedEIP155AvatarURLs := cachedEIP155AvatarURLs this;
      cachedResolvedNames := cachedResolvedNames this;
      emitted := emitted this ++ [e];
      issued := issued this |}).

(** [this.cachedResolvedNames[key] = record] *)
Definition store_name (key : string) (record : ResolvedNameRecord) : M unit := λ this,
  (returns tt,
   {| cachedEIP155AvatarURLs := cachedEIP155AvatarURLs this;
      cachedResolvedNames := <[key := record]> (cachedResolvedNames this);
      emitted := emitted this;
      issued := issued this |}).

(** [this.cachedEIP155AvatarURLs[key] = url] *)
Definition store_avatar (key : string) (url : URL.t) : M unit := λ this,
  (returns tt,
   {| cachedEIP155AvatarURLs := <[key := url]> (cachedEIP155AvatarURLs this);
      cachedResolvedNames := cachedResolvedNames this;
      emitted := emitted this;
      issued := issued this |}).

(** [await] of a promise that settles. *)
Definition settle {A : Type} (p : settled A) : M A :=
  match p with
  | fulfilled value => mret value
  | rejected reason => throw reason
  end.

(** [await collaborator.request(...)] *)
Definition await {A : Type} (c : Call) (reply : settled A) : M A :=
  send [c];; settle reply.

(** [new URL(str)], for the constructor of the platform, which gives the
    URL or throws [TypeError]. *)
Definition new_URL (constructor : string → option URL.t) (s : string) : M URL.t :=
  match constructor s with
  | Some url => mret url
  | None => throw TypeError
  end.

(** *** [Promise.allSettled] *)

(** The promises settle one after the other in the order of the schedule;
    each result is written at the position of its promise. *)
Fixpoint settle_in_order {A : Type} (pending : list (Z → settled A))
    (now_at : nat → Z) (k : nat) (order : list nat)
    (slots : list (option (settled A))) : list (option (settled A)) :=
  match order with
  | [] => slots
  | i :: order =>
      settle_in_order pending now_at (S k) order
        match pending !! i with
        | Some p => <[i := Some (p (now_at k))]> slots
        | None => slots
        end
  end.

(** [None] when one of the promises never settles. *)
Definition allSettled {A : Type} (pending : list (Z → settled A))
    (sched : Schedule) : option (list (settled A)) :=
  mapM id (settle_in_order pending (now_at sched) 0 (completion_order sched)
             (replicate (length pending) None)).

(** [await Promise.allSettled(...)] *)
Definition await_all {A : Type} (pending : list (Z → settled A))
    (sched : Schedule) : M (list (settled A)) :=
  match allSettled pending sched with
  | Some results => mret results
  | None => λ this, (never, this)
  end.

(** The rank of promise [i] in an order of completion. *)
Fixpoint rank (i : nat) (order : list nat) : option nat :=
  match order with
  | [] => None
  | j :: order => if decide (j = i) then Some 0%nat else S <$> rank i order
  end.

(** [Date.now()] at the moment the [i]-th resolver settles. *)
Definition settled_at (sched : Schedule) (i : nat) : Z :=
  now_at sched (default 0%nat (rank i (completion_order sched))).

(** [result.status === "fulfilled" ? result.value : undefined] *)
Definition value_or_undefined {A : Type} (result : settled (option A)) : option A :=
  match result with
  | fulfilled value => value
  | rejected _ => None
  end.

Definition defined {A : Type} (x : option A) : bool :=
  match x with Some _ => true | None => false end.

(** *** [try { ... } catch (error) { ... }] *)

Definition try_catch {A : Type} (body : M A) (handler : exn → M A) : M A := λ this,
  match body this with
  | (throws error, this') => handler error this'
  | outcome => outcome
  end.

(** What [logger.error] is given. *)
Inductive LogEntry : Type :=
| log_error (message : string) (address : string) (error : exn).

(** ** Vocabulary of the statements *)

(** The state once the strategies have been started. *)
Definition started (this : NameService) (cs : list Call) : NameService :=
  {| cachedEIP155AvatarURLs := cachedEIP155AvatarURLs this;
     cachedResolvedNames := cachedResolvedNames this;
     emitted := emitted this;
     issued := issued this ++ cs |}.

(** The state once the winning record has been stored and announced. *)
Definition stored (this : NameService) (address : string) (r : ResolvedNameRecord)
    : NameService :=
  {| cachedEIP155AvatarURLs := cachedEIP155AvatarURLs this;
     cachedResolvedNames := <[address := r]> (cachedResolvedNames this);
     emitted :=
       if bool_decide (resolved_name <$> cachedResolvedNames this !! address
                       ≠ Some (resolved_name r))
       then emitted this ++ [resolvedName r] else emitted this;
     issued := issued this |}.

(** The first record in the answers, in the order of the strategies. *)
Definition first_record (results : list (settled (option ResolvedNameRecord)))
    : option ResolvedNameRecord :=
  mjoin (find defined (value_or_undefined <$> results)).

(** The time at which a strategy settles shows in [expiresAt] only. *)
Definition timeless (x : settled (option ResolvedNameRecord))
    : settled (option (AddressOnNetwork * string * NameResolverSystem)) :=
  and_then (fmap (λ r, (from_addressNetwork r, resolved_name r, system r))) x.

(** The requests of the resolver strategies. *)
Definition is_strategy_request (c : Call) : bool :=
  match c with
  | call_lookupAddress _ | call_getAddressBook | call_getKnownContractNames => true
  | _ => false
  end.

(** [this'] differs from [this] by requests to the provider and by new
    entries of the avatar cache at most: the name cache and the events are
    the same, the requests added are no strategy's, and no entry of the
    avatar cache is lost. *)
Definition provider_only (this this' : NameService) : Prop :=
  cachedResolvedNames this' = cachedResolvedNames this
  ∧ emitted this' = emitted this
  ∧ (∃ cs, issued this' = issued this ++ cs
           ∧ Forall (λ c, is_strategy_request c = false) cs)
  ∧ ∀ key, is_Some (cachedEIP155AvatarURLs this !! key) →
           is_Some (cachedEIP155AvatarURLs this' !! key).

(** A computation that changes the state in this way only. *)
Definition keeps_names {A : Type} (m : M A) : Prop :=
  ∀ this, provider_only this (m this).2.

(** The names of the members of [Object.prototype], which [key in object]
    finds in every object literal. *)
Definition Object_prototype : list string :=
  [ "constructor"; "__defineGetter__"; "__defineSetter__"; "hasOwnProperty";
    "__lookupGetter__"; "__lookupSetter__"; "isPrototypeOf";
    "propertyIsEnumerable"; "toString"; "valueOf"; "__proto__";
    "toLocaleString" ].

(** [address] is a key that the name cache has as an entry or not at all:
    it names no member of [Object.prototype], and the prototype of the
    cache is still [Object.prototype] (an assignment under the key
    ["__proto__"] would have replaced it). *)
Definition own_key (this : NameService) (address : string) : Prop :=
  (address ∉ Object_prototype)
  ∧ (cachedResolvedNames this !! "__proto__" = None).

(** The name in an answer, if it has a record. *)
Definition name_of (x : settled (option ResolvedNameRecord)) : option string :=
  resolved_name <$> value_or_undefined x.

(** ** The preference service's accessors, the resolvers and the service *)
Section Service.

(** Parts of the repository that are not among the sources. *)
(** [SECOND], of [constants]: the length of a second in the unit of
    [Date.now()]. *)
Variable SECOND : Z.
(** [normalizeEVMAddress] and [sameEVMAddress], of [lib/utils]. *)
Variable normalizeEVMAddress : string → string.
Variable sameEVMAddress : option string → string → bool.
(** [ETHEREUM], of [constants/networks]. *)
Variable ETHEREUM : EVMNetwork.
(** [getTokenMetadata], of [lib/erc721]. *)
Variable getTokenMetadata : Provider → string → Z → settled (option ERC721Metadata).
(** The platform's constructor of [URL] on a string: [None] when it throws
    [TypeError], which it does for a string that is no URL. *)
Variable URL_constructor : string → option URL.t.

(** *** [preferences/index.ts] *)

Definition BUILT_IN_CONTRACT_NAMES : gmap string string :=
  {[ normalizeEVMAddress "0xDef1C0ded9bec7F1a1670819833240f027b25EfF" := "0x Router" ]}.

(** The preference service as the repository implements it: no entry in the
    address book, the built-in table for the contracts. *)
Definition PreferenceService_create : PreferenceService :=
  {| getKnownContractNames := fulfilled BUILT_IN_CONTRACT_NAMES;
     getAddressBook := fulfilled ∅ |}.

(** *** [name/utils.ts] *)

(** A minimum record expiry that avoids infinite resolution loops. *)
Definition MINIMUM_RECORD_EXPIRY : Z := 10 * SECOND.

(** [[a-zA-Z0-9][a-zA-Z0-9-]{1,62}] *)
Definition label_re : RegExp.re :=
  RegExp.Cat (RegExp.Cls RegExp.alnum) (RegExp.range 1 62 (RegExp.Cls RegExp.alnum_dash)).

(** [/^[a-zA-Z0-9][a-zA-Z0-9-]{1,62}\.([a-zA-Z0-9][a-zA-Z0-9-]{1,62}\.)*[a-zA-Z0-9][a-zA-Z0-9-]{1,62}/] *)
Definition domain_name (name : string) : bool :=
  RegExp.test_prefix
    (RegExp.Cat label_re
       (RegExp.Cat (RegExp.chr ".")
          (RegExp.Cat (RegExp.Star (RegExp.Cat label_re (RegExp.chr "."))) label_re)))
    name.

Definition ensAddressResolverFor (chainService : ChainService) : NameResolverFunction :=
  λ '{| address := address; network := network |},
    match providerForNetwork chainService network with
    | None => {| requests := []; resume := λ _, fulfilled None |}
    | Some provider =>
        {| requests := [call_lookupAddress address];
           resume := λ now,
             and_then (λ name,
               match name with
               | None => None
               | Some name =>
                   if negb ((String.length name <=? 253)%nat && domain_name name)
                   then None
                   else Some {| from_addressNetwork := {| address := address; network := network |};
                                resolved_name := name;
                                resolved_expiresAt := now + MINIMUM_RECORD_EXPIRY;
                                system := ENS |}
               end)
               (lookupAddress provider address) |}
    end.

Definition addressBookResolverFor (preferenceService : PreferenceService) : NameResolverFunction :=
  λ '{| address := address; network := network |},
    {| requests := [call_getAddressBook];
       resume := λ now,
         and_then (λ evm,
           match evm !! normalizeEVMAddress address with
           | None => None
           | Some name =>
               Some {| from_addressNetwork := {| address := address; network := network |};
                       resolved_name := name;
                       resolved_expiresAt := now + MINIMUM_RECORD_EXPIRY;
                       system := address_book |}
           end)
           (getAddressBook preferenceService) |}.

Definition knownContractResolverFor (preferenceService : PreferenceService) : NameResolverFunction :=
  λ '{| address := address; network := network |},
    {| requests := [call_getKnownContractNames];
       resume := λ now,
         and_then (λ evm,
           match evm !! normalizeEVMAddress address with
           | None => None
           | Some name =>
               Some {| from_addressNetwork := {| address := address; network := network |};
                       resolved_name := name;
                       resolved_expiresAt := now + MINIMUM_RECORD_EXPIRY;
                       system := known_contracts |}
           end)
           (getKnownContractNames preferenceService) |}.

(** *** [name/index.ts] *)

Definition ipfsGateway : URL.t :=
  URL.mk "https" (Some "ipfs.io") false "/ipfs/" None None.

Definition arweaveGateway : URL.t :=
  URL.mk "https" (Some "arweave.net") false "/" None None.

Definition changeURLProtocolAndBase (url baseURL : URL.t) : URL.t :=
  let newURL := url in
  let newURL := URL.set_protocol (URL.protocol baseURL) newURL in
  let newURL := URL.set_hostname (URL.hostname baseURL) newURL in
  let newURL :=
    URL.set_pathname
      (URL.pathname baseURL +:+ "/" +:+ URL.hostname url +:+ "/" +:+ URL.pathname url)
      newURL in
  newURL.

Definition storageGatewayURL (url : URL.t) : URL.t :=
  if String.eqb (URL.protocol url) "ipfs" then changeURLProtocolAndBase url ipfsGateway
  else if String.eqb (URL.protocol url) "ar" then changeURLProtocolAndBase url arweaveGateway
  else url.

(** The collaborators the constructor receives. *)
Variable chainService : ChainService.
Variable preferenceService : PreferenceService.

(** [this.addressResolvers], as the constructor fills it. *)
Definition addressResolvers : list NameResolverFunction :=
  [ ensAddressResolverFor chainService;
    addressBookResolverFor preferenceService;
    knownContractResolverFor preferenceService ].

(** A new service: both caches empty. *)
Definition NameService_create : NameService :=
  {| cachedEIP155AvatarURLs := ∅; cachedResolvedNames := ∅;
     emitted := []; issued := [] |}.

(** [/.*\.eth$/] *)
Definition eth_name (name : string) : bool :=
  RegExp.test_suffix
    (RegExp.Cat (RegExp.Star (RegExp.Cls RegExp.dot)) (RegExp.lit ".eth")) name.

(** [/^0x[a-zA-Z0-9]*$/] *)
Definition hex_shape (address : string) : bool :=
  RegExp.test_whole
    (RegExp.Cat (RegExp.lit "0x") (RegExp.Star (RegExp.Cls RegExp.alnum))) address.

(** [/^eip155:1\/erc721:/] *)
Definition erc721_reference (avatar : string) : bool :=
  RegExp.test_prefix (RegExp.lit "eip155:1/erc721:") avatar.

Definition lookUpEthereumAddress (name : string) : M (option string) :=
  if negb (eth_name name)
  then throw (Error "Only .eth names can be resolved today.")
  else
    let provider := providers_ethereum chainService in
    address ← await (call_resolveName name) (resolveName provider name);
    match JS.truthy address with
    | None => mret None
    | Some address =>
        if negb (hex_shape address)
        then mret None
        else
          let normalized := normalizeEVMAddress address in
          emit (resolvedAddress
                  {| ra_from_name := name;
                     ra_resolved_addressNetwork :=
                       {| address := normalized; network := ETHEREUM |};
                     ra_system := ENS |});;
          mret (Some normalized)
    end.

(** The name a valid cache entry gives: [expiresAt >= Date.now()].  This is
    the check for the keys that [address in this.cachedResolvedNames] finds
    as entries of the cache only.  For the name of a member of
    [Object.prototype] the test holds without an entry, and the code then
    throws [TypeError] on reading the record; the statements on what a call
    can throw take [own_key] as a hypothesis. *)
Definition cached_name (this : NameService) (address : string) (now : Z) : option string :=
  match cachedResolvedNames this !! address with
  | Some record =>
      if resolved_expiresAt record >=? now then Some (resolved_name record) else None
  | None => None
  end.

Definition lookUpName (address : string) (network : EVMNetwork) (checkCache : bool)
    (sched : Schedule) : M (option string) :=
  if negb (String.eqb (chainID network) "1")
  then throw (Error "Only Ethereum mainnet is supported.")
  else
    this ← read;
    match (if checkCache then cached_name this address (now_start sched) else None) with
    | Some name => mret (Some name)
    | None =>
        let started :=
          (λ resolver : NameResolverFunction,
             resolver {| address := address; network := network |})
            <$> addressResolvers in
        send (concat (requests <$> started));;
        attemptedResolutions ← await_all (resume <$> started) sched;
        let resolvedNameRecord :=
          mjoin (find defined
                   (value_or_undefined <$> attemptedResolutions)) in
        match resolvedNameRecord with
        | None => mret None
        | Some resolvedNameRecord =>
            this ← read;
            let existingName := resolved_name <$> cachedResolvedNames this !! address in
            store_name address resolvedNameRecord;;
            (if bool_decide (existingName ≠ Some (resolved_name resolvedNameRecord))
             then emit (resolvedName resolvedNameRecord)
             else mret tt);;
            mret (Some (resolved_name resolvedNameRecord))
        end
    end.

(** What the strategies have asked and what they answer in one call, in the
    order of [addressResolvers]. *)
Definition requested (address : string) (network : EVMNetwork) : list Call :=
  concat ((λ resolver : NameResolverFunction,
             requests (resolver {| address := address; network := network |}))
            <$> addressResolvers).

Definition answers (address : string) (network : EVMNetwork) (sched : Schedule)
    : list (settled (option ResolvedNameRecord)) :=
  imap (λ i (resolver : NameResolverFunction),
          resume (resolver {| address := address; network := network |})
            (settled_at sched i))
       addressResolvers.

Definition lookUpAvatar (address : string) (network : EVMNetwork)
    (sched : Schedule) : M (option URL.t) :=
  if negb (String.eqb (chainID network) "1")
  then throw (Error "Only Ethereum mainnet is supported.")
  else
    name ← lookUpName address network true sched;
    match JS.truthy name with
    | None => mret None
    | Some name =>
        let provider := providers_ethereum chainService in
        resolver ← await (call_getResolver name) (getResolver provider name);
        resolvedAddress ←
          match resolver with
          | Some resolver => await call_getAddress (getAddress resolver)
          | None => mret None
          end;
        if negb (sameEVMAddress resolvedAddress address) then mret None
        else
          avatar ←
            match resolver with
            | Some resolver => await (call_getText "avatar") (getText resolver "avatar")
            | None => mret None
            end;
          match JS.truthy avatar with
          | None => mret None
          | Some avatar =>
              let plain : M (option URL.t) :=
                url ← new_URL URL_constructor avatar;
                mret (Some (storageGatewayURL url)) in
              if erc721_reference avatar then
                this ← read;
                match cachedEIP155AvatarURLs this !! JS.toLowerCase avatar with
                | Some url => mret (Some url)
                | None =>
                    let parts :=
                      JS.split (λ c, bool_decide (c ∈ [":"; "/"]%char)) avatar in
                    match parts !! 3%nat, parts !! 4%nat with
                    | Some erc721Address, Some nftID =>
                        tokenID ←
                          match JS.BigInt nftID with
                          | Some n => mret n
                          | None => throw SyntaxError
                          end;
                        metadata ←
                          await (call_getTokenMetadata erc721Address tokenID)
                            (getTokenMetadata provider erc721Address tokenID);
                        match metadata ≫= (λ m, JS.truthy (image m)) with
                        | Some image =>
                            url ← new_URL URL_constructor image;
                            let resolvedGateway := storageGatewayURL url in
                            store_avatar avatar resolvedGateway;;
                            mret (Some resolvedGateway)
                        | None => plain
                        end
                    | _, _ => plain
                    end
                end
              else plain
          end
    end.

(** The avatar lookup for [address] gets as far as the text record: the
    name is found, its resolver exists and resolves to the address, and the
    record "avatar" reads [text]. *)
Definition reads_text_record (address : string) (network : EVMNetwork)
    (sched : Schedule) (this this1 : NameService) (name : string)
    (text : option string) : Prop :=
  chainID network = "1"
  ∧ lookUpName address network true sched this = (returns (Some name), this1)
  ∧ name ≠ ""
  ∧ ∃ resolver resolved,
      getResolver (providers_ethereum chainService) name = fulfilled (Some resolver)
      ∧ getAddress resolver = fulfilled resolved
      ∧ sameEVMAddress resolved address = true
      ∧ getText resolver "avatar" = fulfilled text.

(** The subscribers the constructor registers.  Each gives what it has
    handed to [logger.error], if anything. *)

(** [chainService.emitter.on("newAccountToTrack", ...)] *)
Definition onNewAccountToTrack (addressNetwork : AddressOnNetwork)
    (sched : Schedule) : M (option LogEntry) :=
  let '{| address := address; network := network |} := addressNetwork in
  try_catch
    (lookUpName address network true sched;; mret None)
    (λ error,
       mret (Some (log_error "Error fetching ENS name for address" address error))).

(** [this.emitter.on("resolvedName", ...)] *)
Definition onResolvedName (record : ResolvedNameRecord)
    (sched : Schedule) : M (option LogEntry) :=
  let '{| address := address; network := network |} := from_addressNetwork record in
  try_catch
    (avatar ← lookUpAvatar address network sched;
     match avatar with
     | Some avatar =>
         emit (resolvedAvatar
                 {| rv_from_addressNetwork := {| address := address; network := network |};
                    rv_resolved_avatar := avatar;
                    rv_system := ENS |});;
         mret None
     | None => mret None
     end)
    (λ error,
       mret (Some (log_error "Error fetching avatar for address" address error))).

End Service.

(** ** A concrete setting

    Stand-ins for the absent parts and sample collaborators, on which the
    statements below are exercised. *)
Module Example.

Definition SECOND : Z := 1000.

Definition normalizeEVMAddress : string → string := JS.toLowerCase.

Definition sameEVMAddress (a : option string) (b : string) : bool :=
  match a with
  | Some a => String.eqb (JS.toLowerCase a) (JS.toLowerCase b)
  | None => false
  end.

Definition ETHEREUM : EVMNetwork := {| chainID := "1" |}.

Definition getTokenMetadata (_ : Provider) (erc721Address : string) (tokenID : Z)
    : settled (option ERC721Metadata) :=
  fulfilled (if tokenID =? 2430 then Some {| image := Some "https://example.com/a" |}
             else None).

(** The URLs of the examples are of those [URL.parse] covers. *)
Definition URL_constructor : string → option URL.t := URL.parse.

Definition account : string := "0xd8dA6BF26964aF9D7eEd9e03E53415D37aA96045".

Definition resolver (avatar : string) : Resolver :=
  {| getAddress := fulfilled (Some account);
     getText := λ key, fulfilled (if String.eqb key "avatar" then Some avatar else None) |}.

(** A provider that answers [reverse] to every reverse lookup and whose
    names all carry the text record [avatar]. *)
Definition provider (reverse : settled (option string)) (avatar : string) : Provider :=
  {| lookupAddress := λ _, reverse;
     resolveName := λ name,
       fulfilled (if String.eqb name "vitalik.eth" then Some account
                  else if String.eqb name "odd.eth" then Some "vitalik"
                  else None);
     getResolver := λ _, fulfilled (Some (resolver avatar)) |}.

Definition chain (reverse : settled (option string)) (avatar : string) : ChainService :=
  {| providerForNetwork := λ _, Some (provider reverse avatar);
     providers_ethereum := provider reverse avatar |}.

Definition preferences (book : settled (gmap string string)) : PreferenceService :=
  {| getAddressBook := book;
     getKnownContractNames := fulfilled (BUILT_IN_CONTRACT_NAMES normalizeEVMAddress) |}.

(** The known-contract table answers first, then the reverse lookup, then
    the address book. *)
Definition schedule : Schedule :=
  {| now_start := 5000;
     completion_order := [2; 0; 1]%nat;
     now_at := λ k, 5001 + Z.of_nat k |}.

Definition record' (name : string) (expiresAt : Z) (system : NameResolverSystem)
    : ResolvedNameRecord :=
  {| from_addressNetwork := {| address := account; network := ETHEREUM |};
     resolved_name := name;
     resolved_expiresAt := expiresAt;
     system := system |}.

Definition record (name : string) (expiresAt : Z) : ResolvedNameRecord :=
  record' name expiresAt ENS.

(** An address book with a name for [account]. *)
Definition book : gmap string string :=
  {[ normalizeEVMAddress account := "Vitalik" ]}.

(** An avatar text record that names a token contract and no token. *)
Definition reference : string :=
  "eip155:1/erc721:0xb7F7F6C52F2e2fdb1963Eab30438024864c313F6".

(** A service that has [name] in its cache for [account]. *)
Definition service (name : string) (expiresAt : Z) : NameService :=
  {| cachedEIP155AvatarURLs := ∅;
     cachedResolvedNames := {[ account := record name expiresAt ]};
     emitted := [];
     issued := [] |}.

(** A network that is not the primary one. *)
Definition goerli : EVMNetwork := {| chainID := "5" |}.

(** The address book never answers. *)
Definition stalled : Schedule :=
  {| now_start := 5000;
     completion_order := [2; 0]%nat;
     now_at := λ k, 5001 + Z.of_nat k |}.

(** A later moment, within ten seconds of [schedule]. *)
Definition later : Schedule :=
  {| now_start := 9000;
     completion_order := [0; 1; 2]%nat;
     now_at := λ k, 9001 + Z.of_nat k |}.

(** The reverse lookup and the known-contract table answer at once, the
    address book after a minute. *)
Definition slow : Schedule :=
  {| now_start := 5000;
     completion_order := [0; 2; 1]%nat;
     now_at := λ k, if (k <? 2)%nat then 5001 + Z.of_nat k else 59998 + Z.of_nat k |}.

(** An avatar text record that names a token with an image. *)
Definition token_reference : string := reference +:+ "/2430".

(** A provider that fails at every request. *)
Definition faulty_chain : ChainService :=
  let provider :=
    {| lookupAddress := λ _, rejected (Fault "rpc");
       resolveName := λ _, rejected (Fault "rpc");
       getResolver := λ _, rejected (Fault "rpc") |} in
  {| providerForNetwork := λ _, Some provider; providers_ethereum := provider |}.

(** A service with one entry in its avatar cache. *)
Definition service_with_avatar (key : string) (url : URL.t) : NameService :=
  {| cachedEIP155AvatarURLs := {[ key := url ]};
     cachedResolvedNames := ∅;
     emitted := [];
     issued := [] |}.

End Example.

(** * Properties *)

(** ** Strings *)

Lemma append_cons c (s t : string) : String c s +:+ t = String c (s +:+ t).
Proof. reflexivity. Qed.

Lemma append_nil_r (s : string) : s +:+ "" = s.
Proof. induction s as [|c s IH]; [done|]. by rewrite append_cons, IH. Qed.

Lemma append_assoc (s t u : string) : (s +:+ t) +:+ u = s +:+ t +:+ u.
Proof. induction s as [|c s IH]; [done|]. by rewrite !append_cons, IH. Qed.

Lemma append_eq_nil (s t : string) : s +:+ t = "" → s = "" ∧ t = "".
Proof. destruct s; [done|]. rewrite append_cons. discriminate. Qed.

Lemma append_eq_cons (s t : string) c w :
  s +:+ t = String c w →
  (s = "" ∧ t = String c w) ∨ (∃ s', s = String c s' ∧ w = s' +:+ t).
Proof.
  destruct s as [|d s]; intros H.
  - left. done.
  - right. rewrite append_cons in H. injection H as -> <-. eauto.
Qed.

(** ** The matcher decides the language *)
Module RegExpFacts.
Import RegExp.

Lemma Lang_Void u : Lang Void u ↔ False.
Proof. split; [inversion 1 | tauto]. Qed.

Lemma Lang_Eps u : Lang Eps u ↔ u = "".
Proof. split; [by inversion 1 | intros ->; constructor]. Qed.

Lemma Lang_Cls p u : Lang (Cls p) u ↔ ∃ c, u = String c "" ∧ p c = true.
Proof.
  split.
  - inversion 1; eauto.
  - intros (c & -> & H). by constructor.
Qed.

Lemma Lang_Cat r s w :
  Lang (Cat r s) w ↔ ∃ u v, w = u +:+ v ∧ Lang r u ∧ Lang s v.
Proof.
  split.
  - inversion 1; eauto.
  - intros (u & v & -> & Hu & Hv). by constructor.
Qed.

Lemma Lang_Alt r s w : Lang (Alt r s) w ↔ Lang r w ∨ Lang s w.
Proof.
  split.
  - inversion 1; eauto.
  - intros [H|H]; [by apply LAltL | by apply LAltR].
Qed.

Lemma Lang_Star_cons r c w :
  Lang (Star r) (String c w) →
  ∃ u v, w = u +:+ v ∧ Lang r (String c u) ∧ Lang (Star r) v.
Proof.
  intros H. remember (Star r) as e eqn:He. remember (String c w) as x eqn:Hx.
  revert c w Hx.
  induction H as [| | | | | |r' u v Hu _ Hv IHv]; intros a w Hx; try discriminate.
  injection He as ->.
  destruct (append_eq_cons _ _ _ _ Hx) as [[-> ->]|(u' & -> & ->)].
  - by apply IHv.
  - eauto.
Qed.

Lemma Lang_cat r s w : Lang (cat r s) w ↔ Lang (Cat r s) w.
Proof.
  assert (HV1 : ∀ s, Lang Void w ↔ Lang (Cat Void s) w).
  { intros s'. rewrite Lang_Cat, Lang_Void. split; [done|].
    intros (u & v & _ & Hu & _). by apply Lang_Void in Hu. }
  assert (HV2 : ∀ r, Lang Void w ↔ Lang (Cat r Void) w).
  { intros r'. rewrite Lang_Cat, Lang_Void. split; [done|].
    intros (u & v & _ & _ & Hv). by apply Lang_Void in Hv. }
  assert (HE : ∀ s, Lang s w ↔ Lang (Cat Eps s) w).
  { intros s'. rewrite Lang_Cat. split.
    - intros H. exists "", w. split; [done|]. split; [constructor | done].
    - intros (u & v & -> & Hu & Hv). by apply Lang_Eps in Hu as ->. }
  destruct r; destruct s; simpl;
    first [apply HV1 | apply HV2 | apply HE | reflexivity].
Qed.

Lemma Lang_alt r s w : Lang (alt r s) w ↔ Lang (Alt r s) w.
Proof.
  rewrite Lang_Alt.
  destruct r; destruct s; simpl; rewrite ?Lang_Void, ?Lang_Alt; tauto.
Qed.

Lemma nullable_Lang r : nullable r = true ↔ Lang r "".
Proof.
  induction r as [| |p|r IHr s IHs|r IHr s IHs|r IHr]; simpl.
  - rewrite Lang_Void. split; [discriminate | tauto].
  - rewrite Lang_Eps. tauto.
  - rewrite Lang_Cls. split; [discriminate | by intros (c & ? & _)].
  - rewrite andb_true_iff, IHr, IHs, Lang_Cat. split.
    + intros [Hr Hs]. by exists "", "".
    + intros (u & v & Huv & Hu & Hv).
      symmetry in Huv. apply append_eq_nil in Huv as [-> ->]. tauto.
  - rewrite orb_true_iff, IHr, IHs, Lang_Alt. tauto.
  - split; [constructor | done].
Qed.

Lemma deriv_Lang c r : ∀ w, Lang (deriv c r) w ↔ Lang r (String c w).
Proof.
  induction r as [| |p|r IHr s IHs|r IHr s IHs|r IHr]; intros w; simpl.
  - rewrite !Lang_Void. tauto.
  - rewrite Lang_Void, Lang_Eps. split; [tauto | discriminate].
  - rewrite Lang_Cls. destruct (p c) eqn:Hp.
    + rewrite Lang_Eps. split.
      * intros ->. eauto.
      * intros (d & Hd & _). by simplify_eq.
    + rewrite Lang_Void. split; [tauto|].
      intros (d & Hd & ?). simplify_eq. congruence.
  - rewrite Lang_alt, Lang_Alt, Lang_cat, !Lang_Cat. split.
    + intros [(u & v & -> & Hu & Hv) | H].
      * exists (String c u), v. split; [done|]. split; [by apply IHr | done].
      * destruct (nullable r) eqn:Hn; [|by apply Lang_Void in H].
        exists "", (String c w). split; [done|].
        split; [by apply nullable_Lang | by apply IHs].
    + intros (u & v & Huv & Hu & Hv).
      symmetry in Huv.
      destruct (append_eq_cons _ _ _ _ Huv) as [[-> ->]|(u' & -> & ->)].
      * right. apply nullable_Lang in Hu. rewrite Hu. by apply IHs.
      * left. exists u', v. split; [done|]. split; [by apply IHr | done].
  - rewrite Lang_alt, !Lang_Alt, IHr, IHs. tauto.
  - rewrite Lang_cat, Lang_Cat. split.
    + intros (u & v & -> & Hu & Hv).
      change (String c (u +:+ v)) with (String c u +:+ v).
      apply LStarS; [by apply IHr | done].
    + intros H. apply Lang_Star_cons in H as (u & v & -> & Hu & Hv).
      exists u, v. split; [done|]. split; [by apply IHr | done].
Qed.

Lemma matches_Lang r w : matches r w = true ↔ Lang r w.
Proof.
  revert r. induction w as [|c w IH]; intros r; simpl.
  - apply nullable_Lang.
  - rewrite IH. apply deriv_Lang.
Qed.

Lemma Lang_Star_any w : Lang (Star any) w.
Proof.
  induction w as [|c w IH]; [constructor|].
  change (String c w) with (String c "" +:+ w).
  apply LStarS; [by constructor | done].
Qed.

Lemma Lang_lit s w : Lang (lit s) w ↔ w = s.
Proof.
  revert w. induction s as [|c s IH]; intros w; simpl.
  - apply Lang_Eps.
  - rewrite Lang_Cat. split.
    + intros (u & v & -> & Hu & Hv). apply Lang_Cls in Hu as (d & -> & Hd).
      apply Ascii.eqb_eq in Hd as ->. apply IH in Hv as ->. done.
    + intros ->. exists (String c ""), s. split; [done|].
      split; [|by apply IH]. apply Lang_Cls. exists c. split; [done|].
      apply Ascii.eqb_refl.
Qed.

(** [/^r/] holds of the strings that start with a word of [r] and [/r$/]
    of those that end with one. *)
Lemma test_prefix_spec r s :
  test_prefix r s = true ↔ ∃ u v, s = u +:+ v ∧ Lang r u.
Proof.
  unfold test_prefix. rewrite matches_Lang, Lang_Cat. split.
  - intros (u & v & -> & Hu & _). eauto.
  - intros (u & v & -> & Hu). exists u, v. eauto using Lang_Star_any.
Qed.

Lemma test_suffix_spec r s :
  test_suffix r s = true ↔ ∃ u v, s = u +:+ v ∧ Lang r v.
Proof.
  unfold test_suffix. rewrite matches_Lang, Lang_Cat. split.
  - intros (u & v & -> & _ & Hv). eauto.
  - intros (u & v & -> & Hv). exists u, v. eauto using Lang_Star_any.
Qed.

End RegExpFacts.

(** ** [Promise.allSettled] keeps the order of its input *)
Section AllSettled.
Context {A : Type}.
Implicit Types (pending : list (Z → settled A)) (slots : list (option (settled A))).

Lemma length_settle_in_order pending now_at order : ∀ k slots,
  length (settle_in_order pending now_at k order slots) = length slots.
Proof.
  induction order as [|i order IH]; intros k slots; simpl; [done|].
  rewrite IH. destruct (pending !! i); [apply length_insert | done].
Qed.

Lemma rank_None i order : i ∉ order → rank i order = None.
Proof.
  induction order as [|j order IH]; simpl; [done|].
  intros Hi. apply not_elem_of_cons in Hi as [Hne Hi].
  destruct (decide (j = i)); [congruence|]. by rewrite IH.
Qed.

Lemma rank_is_Some i order : i ∈ order → is_Some (rank i order).
Proof.
  induction order as [|j order IH]; simpl.
  - by intros ?%elem_of_nil.
  - intros Hi. destruct (decide (j = i)); [eauto|].
    apply elem_of_cons in Hi as [->|Hi]; [done|].
    destruct (IH Hi) as [m ->]. eauto.
Qed.

(** What slot [j] holds once the promises listed in [order] have settled. *)
Lemma settle_in_order_lookup pending now_at order : NoDup order → ∀ k slots j,
  length slots = length pending →
  settle_in_order pending now_at k order slots !! j =
    match rank j order, pending !! j with
    | Some n, Some p => Some (Some (p (now_at (k + n)%nat)))
    | _, _ => slots !! j
    end.
Proof.
  induction 1 as [|i order Hi _ IH]; intros k slots j Hlen; simpl.
  - by destruct (pending !! j).
  - rewrite IH by (destruct (pending !! i); [by rewrite length_insert | done]).
    destruct (decide (i = j)) as [->|Hne].
    + rewrite (rank_None _ _ Hi). simpl.
      destruct (pending !! j) as [p|] eqn:Hp; [|done].
      rewrite Nat.add_0_r. apply list_lookup_insert_eq.
      rewrite Hlen. by eapply lookup_lt_Some.
    + destruct (rank j order) as [n|]; simpl.
      * destruct (pending !! j); [by rewrite Nat.add_succ_r|].
        destruct (pending !! i); [by rewrite list_lookup_insert_ne | done].
      * destruct (pending !! i); [by rewrite list_lookup_insert_ne | done].
Qed.

(** When each promise settles exactly once, [Promise.allSettled] gives, at
    each position, the result of the promise at that position. *)
Lemma allSettled_complete pending sched :
  completion_order sched ≡ₚ seq 0 (length pending) →
  allSettled pending sched = Some (imap (λ i p, p (settled_at sched i)) pending).
Proof.
  intros Hperm. unfold allSettled. apply mapM_Some.
  assert (Hnd : NoDup (completion_order sched)).
  { rewrite Hperm. apply NoDup_seq. }
  apply Forall2_same_length_lookup_2.
  - by rewrite length_settle_in_order, length_replicate, length_imap.
  - intros j x y Hx Hy.
    rewrite (settle_in_order_lookup _ _ _ Hnd) in Hx by apply length_replicate.
    rewrite list_lookup_imap in Hy.
    destruct (pending !! j) as [p|] eqn:Hp; [|done]. simpl in Hy.
    assert (Hj : j ∈ completion_order sched).
    { rewrite Hperm. apply elem_of_seq. apply lookup_lt_Some in Hp. lia. }
    destruct (rank_is_Some _ _ Hj) as [n Hn].
    unfold settled_at in Hy. rewrite Hn in Hx, Hy. simpl in *. congruence.
Qed.

End AllSettled.

Section Properties.
Context (SECOND : Z) (normalizeEVMAddress : string → string)
  (sameEVMAddress : option string → string → bool) (ETHEREUM : EVMNetwork)
  (getTokenMetadata : Provider → string → Z → settled (option ERC721Metadata))
  (URL_constructor : string → option URL.t)
  (chainService : ChainService) (preferenceService : PreferenceService).

Local Abbreviation lookUpName :=
  (lookUpName SECOND normalizeEVMAddress chainService preferenceService).
Local Abbreviation lookUpAvatar :=
  (lookUpAvatar SECOND normalizeEVMAddress sameEVMAddress getTokenMetadata
     URL_constructor chainService preferenceService).
Local Abbreviation lookUpEthereumAddress :=
  (lookUpEthereumAddress normalizeEVMAddress ETHEREUM chainService).
Local Abbreviation addressResolvers :=
  (addressResolvers SECOND normalizeEVMAddress chainService preferenceService).
Local Abbreviation answers :=
  (answers SECOND normalizeEVMAddress chainService preferenceService).
Local Abbreviation requested :=
  (requested SECOND normalizeEVMAddress chainService preferenceService).

Implicit Types (address name : string) (network : EVMNetwork) (sched : Schedule)
  (this : NameService) (r : ResolvedNameRecord) (i j : nat) (checkCache : bool).

(** *** Shape of a [lookUpName] call *)

Lemma lookUpName_other_network address network checkCache sched this :
  chainID network ≠ "1" →
  lookUpName address network checkCache sched this
  = (throws (Error "Only Ethereum mainnet is supported."), this).
Proof.
  intros Hn. unfold lookUpName.
  apply String.eqb_neq in Hn. by rewrite Hn.
Qed.

Lemma lookUpName_hit address network sched this name :
  chainID network = "1" →
  cached_name this address (now_start sched) = Some name →
  lookUpName address network true sched this = (returns (Some name), this).
Proof.
  intros Hn Hc. unfold lookUpName.
  apply String.eqb_eq in Hn. rewrite Hn. simpl.
  unfold mbind, M_bind, read. by rewrite Hc.
Qed.

Lemma lookUpName_miss address network checkCache sched this :
  chainID network = "1" →
  (if checkCache then cached_name this address (now_start sched) else None) = None →
  completion_order sched ≡ₚ seq 0%nat 3%nat →
  lookUpName address network checkCache sched this =
    match first_record (answers address network sched) with
    | None => (returns None, started this (requested address network))
    | Some r =>
        (returns (Some (resolved_name r)),
         stored (started this (requested address network)) address r)
    end.
Proof.
  intros Hn Hc Hperm. unfold lookUpName.
  apply String.eqb_eq in Hn. rewrite Hn. simpl.
  unfold mbind at 1. unfold M_bind at 1. unfold read at 1. rewrite Hc.
  unfold mbind at 1. unfold M_bind at 1. unfold send at 1.
  unfold mbind at 1. unfold M_bind at 1. unfold await_all.
  rewrite allSettled_complete by done.
  change (mjoin (find defined (value_or_undefined <$> ?l))) with (first_record l).
  unfold mret at 1, M_ret at 1.
  change (imap _ _) with (answers address network sched).
  destruct (first_record _) as [r|]; [|done].
  unfold mbind, M_bind, read, store_name, stored, started; simpl.
  by case_bool_decide.
Qed.

(** Every strategy is started on a call that does not end at the cache,
    whatever happens afterwards. *)
Lemma lookUpName_issued address network checkCache sched this :
  chainID network = "1" →
  (if checkCache then cached_name this address (now_start sched) else None) = None →
  issued (lookUpName address network checkCache sched this).2
  = issued this ++ requested address network.
Proof.
  intros Hn Hc. unfold lookUpName.
  apply String.eqb_eq in Hn. rewrite Hn. simpl.
  unfold mbind at 1. unfold M_bind at 1. unfold read at 1. rewrite Hc.
  unfold mbind at 1. unfold M_bind at 1. unfold send at 1.
  unfold mbind at 1. unfold M_bind at 1. unfold await_all.
  destruct (allSettled _ _) as [results|]; [|done].
  unfold mret at 1, M_ret at 1.
  destruct (mjoin _) as [r|]; [|done].
  unfold mbind, M_bind, read, store_name; simpl.
  by case_bool_decide.
Qed.

(** *** The first record of a list of answers *)

Lemma first_record_cons x results :
  first_record (x :: results) =
    match value_or_undefined x with
    | Some r => Some r
    | None => first_record results
    end.
Proof. unfold first_record. simpl. by destruct (value_or_undefined x). Qed.

Lemma first_record_Some results r :
  first_record results = Some r ↔
  ∃ i, results !! i = Some (fulfilled (Some r))
       ∧ ∀ j r', (j < i)%nat → results !! j ≠ Some (fulfilled (Some r')).
Proof.
  induction results as [|x results IH].
  - split; [done | by intros (i & Hi & _)].
  - rewrite first_record_cons. destruct x as [[r0|]|e]; simpl.
    + split.
      * intros [= ->]. exists 0%nat. split; [done|]. intros; lia.
      * intros ([|i] & Hi & Hfirst); [by simplify_eq/=|].
        by destruct (Hfirst 0%nat r0); [lia|].
    + rewrite IH. split.
      * intros (i & Hi & Hfirst). exists (S i). split; [done|].
        intros [|j] r' Hj; [done|]. apply Hfirst. lia.
      * intros ([|i] & Hi & Hfirst); [done|]. exists i. split; [done|].
        intros j r' Hj. apply (Hfirst (S j)). lia.
    + rewrite IH. split.
      * intros (i & Hi & Hfirst). exists (S i). split; [done|].
        intros [|j] r' Hj; [done|]. apply Hfirst. lia.
      * intros ([|i] & Hi & Hfirst); [done|]. exists i. split; [done|].
        intros j r' Hj. apply (Hfirst (S j)). lia.
Qed.

Lemma first_record_None results :
  first_record results = None ↔
  ∀ i r, results !! i ≠ Some (fulfilled (Some r)).
Proof.
  induction results as [|x results IH].
  - split; [by intros _ i r | done].
  - rewrite first_record_cons. destruct x as [[r0|]|e]; simpl.
    + split; [done|]. intros H. by destruct (H 0%nat r0).
    + rewrite IH. split.
      * intros H [|i] r; [done | apply H].
      * intros H i r. apply (H (S i)).
    + rewrite IH. split.
      * intros H [|i] r; [done | apply H].
      * intros H i r. apply (H (S i)).
Qed.

(** A fault and a missing value are one to the selection. *)
Lemma first_record_ext results results' :
  value_or_undefined <$> results = value_or_undefined <$> results' →
  first_record results = first_record results'.
Proof. unfold first_record. by intros ->. Qed.

(** *** The answers of the three strategies *)

(** The provenance tags in the order of the strategies. *)
Lemma answers_system address network sched i r :
  answers address network sched !! i = Some (fulfilled (Some r)) →
  [ENS; address_book; known_contracts] !! i = Some (system r).
Proof.
  unfold answers, addressResolvers, ensAddressResolverFor,
    addressBookResolverFor, knownContractResolverFor.
  destruct i as [|[|[|i]]]; simpl; [| | |done].
  - destruct (providerForNetwork _ _) as [p|]; simpl; [|done].
    destruct (lookupAddress p address) as [[n|]|e]; simpl; [|done..].
    destruct (negb _); [done|]. by intros [= <-].
  - destruct (getAddressBook _) as [m|e]; simpl; [|done].
    destruct (m !! _); [|done]. by intros [= <-].
  - destruct (getKnownContractNames _) as [m|e]; simpl; [|done].
    destruct (m !! _); [|done]. by intros [= <-].
Qed.

(** With the preference service of the repository the address book is
    empty: its strategy has no record for any address. *)
Lemma addressBook_of_repository_is_empty address network (now : Z) :
  resume (addressBookResolverFor SECOND normalizeEVMAddress
            (PreferenceService_create normalizeEVMAddress)
            {| address := address; network := network |}) now
  = fulfilled None.
Proof. reflexivity. Qed.

Lemma answers_timeless address network sched sched' :
  timeless <$> answers address network sched
  = timeless <$> answers address network sched'.
Proof.
  unfold answers, addressResolvers, ensAddressResolverFor,
    addressBookResolverFor, knownContractResolverFor. simpl.
  f_equal; [|f_equal; [|f_equal]].
  - destruct (providerForNetwork chainService network) as [p|]; simpl; [|done].
    destruct (lookupAddress p address) as [[n|]|e]; simpl; [|done..].
    by destruct (negb _).
  - destruct (getAddressBook preferenceService) as [m|e]; simpl; [|done].
    by destruct (m !! _).
  - destruct (getKnownContractNames preferenceService) as [m|e]; simpl; [|done].
    by destruct (m !! _).
Qed.

Lemma first_record_timeless results results' :
  timeless <$> results = timeless <$> results' →
  (λ r, (from_addressNetwork r, resolved_name r, system r)) <$> first_record results
  = (λ r, (from_addressNetwork r, resolved_name r, system r)) <$> first_record results'.
Proof.
  revert results'. induction results as [|x results IH]; intros [|y results'] H;
    try discriminate; [done|].
  injection H as Hxy Hrest. rewrite !first_record_cons.
  destruct x as [[r|]|e], y as [[r'|]|e']; simpl in *; try discriminate; auto.
  by injection Hxy as -> -> ->.
Qed.

(** *** Selection of the winner *)

(** C2. On the primary network, in a call that goes past the cache, the
    strategy at position [i] of the order on-chain reverse lookup (ENS),
    address book, known contracts wins as soon as no strategy before it
    has produced a record: its name is returned and its record is the one
    in the cache.  The order in which the strategies complete is any, and
    for every other order of completion the same name, from the same
    strategy, is returned and cached. *)
Theorem lookUpName_priority address network checkCache sched this i r :
  chainID network = "1" →
  completion_order sched ≡ₚ seq 0%nat 3%nat →
  (if checkCache then cached_name this address (now_start sched) else None) = None →
  answers address network sched !! i = Some (fulfilled (Some r)) →
  (∀ j r', (j < i)%nat →
     answers address network sched !! j ≠ Some (fulfilled (Some r'))) →
  [ENS; address_book; known_contracts] !! i = Some (system r)
  ∧ (lookUpName address network checkCache sched this).1
    = returns (Some (resolved_name r))
  ∧ cachedResolvedNames (lookUpName address network checkCache sched this).2
      !! address = Some r
  ∧ ∀ sched',
      completion_order sched' ≡ₚ seq 0%nat 3%nat →
      (if checkCache then cached_name this address (now_start sched') else None)
      = None →
      (lookUpName address network checkCache sched' this).1
      = returns (Some (resolved_name r))
      ∧ ∃ r', cachedResolvedNames
                (lookUpName address network checkCache sched' this).2 !! address
              = Some r'
              ∧ resolved_name r' = resolved_name r ∧ system r' = system r.
Proof.
  intros Hn Hperm Hmiss Hi Hfirst.
  assert (Hwin : first_record (answers address network sched) = Some r).
  { apply first_record_Some. eauto. }
  split; [by eapply answers_system|].
  rewrite lookUpName_miss, Hwin by done. simpl.
  split; [done|]. split; [apply lookup_insert_eq|].
  intros sched' Hperm' Hmiss'.
  pose proof (first_record_timeless _ _
                (answers_timeless address network sched sched')) as Hsame.
  rewrite Hwin in Hsame. rewrite lookUpName_miss by done.
  destruct (first_record (answers address network sched')) as [r'|];
    [|discriminate].
  injection Hsame as _ Hname Hsys. simpl.
  split; [by rewrite Hname|].
  exists r'. by rewrite lookup_insert_eq.
Qed.

(** *** The cache and the event on a winning record *)

(** C4. A call that goes past the cache and returns a name has stored the
    winning record under the address, whatever was there, and has emitted
    "resolvedName" with that record exactly when the name is not the one
    that was cached for the address before (none cached included). *)
Theorem lookUpName_stores_and_emits address network checkCache sched this name :
  chainID network = "1" →
  completion_order sched ≡ₚ seq 0%nat 3%nat →
  (if checkCache then cached_name this address (now_start sched) else None) = None →
  (lookUpName address network checkCache sched this).1 = returns (Some name) →
  ∃ i r,
    answers address network sched !! i = Some (fulfilled (Some r))
    ∧ resolved_name r = name
    ∧ cachedResolvedNames (lookUpName address network checkCache sched this).2
      = <[address := r]> (cachedResolvedNames this)
    ∧ emitted (lookUpName address network checkCache sched this).2
      = if decide (resolved_name <$> cachedResolvedNames this !! address = Some name)
        then emitted this
        else emitted this ++ [resolvedName r].
Proof.
  intros Hn Hperm Hmiss. rewrite lookUpName_miss by done.
  destruct (first_record _) as [r|] eqn:Hwin; simpl; [|done].
  intros [= <-]. apply first_record_Some in Hwin as (i & Hi & _).
  exists i, r. repeat split; [done|].
  case_bool_decide; case_decide; done.
Qed.

(** C8. When no strategy produces a record, the call does not touch the
    name cache and emits nothing; and the call that has gone past the cache
    returns "not found". *)
Theorem lookUpName_not_found address network checkCache sched this :
  chainID network = "1" →
  completion_order sched ≡ₚ seq 0%nat 3%nat →
  (∀ i r, answers address network sched !! i ≠ Some (fulfilled (Some r))) →
  cachedResolvedNames (lookUpName address network checkCache sched this).2
  = cachedResolvedNames this
  ∧ emitted (lookUpName address network checkCache sched this).2 = emitted this
  ∧ ((if checkCache then cached_name this address (now_start sched) else None)
     = None →
     (lookUpName address network checkCache sched this).1 = returns None).
Proof.
  intros Hn Hperm Hnone. apply first_record_None in Hnone.
  destruct (if checkCache then cached_name this address (now_start sched) else None)
    as [name|] eqn:Hc.
  - destruct checkCache; [|done]. by rewrite (lookUpName_hit _ _ _ _ name).
  - by rewrite lookUpName_miss, Hnone.
Qed.

(** *** Expiry *)

(** The record of a strategy expires ten seconds after it has settled. *)
Lemma answers_expiry address network sched i r :
  answers address network sched !! i = Some (fulfilled (Some r)) →
  resolved_expiresAt r = settled_at sched i + 10 * SECOND.
Proof.
  unfold answers, addressResolvers, ensAddressResolverFor,
    addressBookResolverFor, knownContractResolverFor, MINIMUM_RECORD_EXPIRY.
  destruct i as [|[|[|i]]]; simpl; [| | |done].
  - destruct (providerForNetwork _ _) as [p|]; simpl; [|done].
    destruct (lookupAddress p address) as [[n|]|e]; simpl; [|done..].
    destruct (negb _); [done|]. by intros [= <-].
  - destruct (getAddressBook _) as [m|e]; simpl; [|done].
    destruct (m !! _); [|done]. by intros [= <-].
  - destruct (getKnownContractNames _) as [m|e]; simpl; [|done].
    destruct (m !! _); [|done]. by intros [= <-].
Qed.

(** C10, as the code has it.  A record produced by any of the three
    strategies expires [10 * SECOND] after the moment its strategy resumed
    with the answer.  The entry that [lookUpName] caches is the record of
    the winning strategy, stored once all three have settled: it is served
    at the times up to ten seconds after the winning strategy settled,
    whenever it was stored, and at no later time. *)
Theorem record_expires_after_ten_seconds address network :
  (∀ (f : NameResolverFunction) (now : Z) r,
     f ∈ addressResolvers →
     resume (f {| address := address; network := network |}) now
     = fulfilled (Some r) →
     resolved_expiresAt r = now + 10 * SECOND)
  ∧ ∀ checkCache sched this name,
      chainID network = "1" →
      completion_order sched ≡ₚ seq 0%nat 3%nat →
      (if checkCache then cached_name this address (now_start sched) else None)
      = None →
      (lookUpName address network checkCache sched this).1 = returns (Some name) →
      ∃ i r,
        answers address network sched !! i = Some (fulfilled (Some r))
        ∧ (∀ j r', (j < i)%nat →
             answers address network sched !! j ≠ Some (fulfilled (Some r')))
        ∧ resolved_name r = name
        ∧ cachedResolvedNames (lookUpName address network checkCache sched this).2
            !! address = Some r
        ∧ resolved_expiresAt r = settled_at sched i + 10 * SECOND
        ∧ ∀ t : Z,
            cached_name (lookUpName address network checkCache sched this).2
              address t = Some name
            ↔ t ≤ settled_at sched i + 10 * SECOND.
Proof.
  split.
  - intros f now r Hf Hr. unfold addressResolvers in Hf.
    repeat (apply elem_of_cons in Hf as [->|Hf]); [| | |by apply elem_of_nil in Hf];
      simpl in Hr.
    + destruct (providerForNetwork chainService network) as [p|]; simpl in Hr; [|done].
      destruct (lookupAddress p address) as [[n|]|e]; simpl in Hr; [|done..].
      destruct (negb _); [done|]. by injection Hr as <-.
    + destruct (getAddressBook preferenceService) as [m|e]; simpl in Hr; [|done].
      destruct (m !! _); [|done]. by injection Hr as <-.
    + destruct (getKnownContractNames preferenceService) as [m|e]; simpl in Hr; [|done].
      destruct (m !! _); [|done]. by injection Hr as <-.
  - intros checkCache sched this name Hn Hperm Hmiss.
    rewrite lookUpName_miss by done.
    destruct (first_record _) as [r|] eqn:Hwin; simpl; [|done].
    intros [= <-]. apply first_record_Some in Hwin as (i & Hi & Hfirst).
    pose proof (answers_expiry _ _ _ _ _ Hi) as Hexp.
    exists i, r. split; [done|]. split; [done|]. split; [done|].
    split; [apply lookup_insert_eq|]. split; [done|].
    intros t. unfold cached_name. simpl. rewrite lookup_insert_eq, Hexp.
    destruct (Z.geb_spec (settled_at sched i + 10 * SECOND) t); split;
      (done || lia).
Qed.

(** *** The cache check *)

(** C5, as the code has it.  With [checkCache], an entry for the address
    whose [expiresAt] is now or later is served at once: the call returns
    its name and sends nothing to any collaborator.  An entry whose
    [expiresAt] is strictly in the past is not served: the three strategies
    are started. *)
Theorem lookUpName_cache_check address network sched this r :
  chainID network = "1" →
  cachedResolvedNames this !! address = Some r →
  (now_start sched ≤ resolved_expiresAt r →
   lookUpName address network true sched this
   = (returns (Some (resolved_name r)), this))
  ∧ (resolved_expiresAt r < now_start sched →
     issued (lookUpName address network true sched this).2
     = issued this ++ requested address network
     ∧ ∃ cs, requested address network
             = cs ++ [call_getAddressBook; call_getKnownContractNames]).
Proof.
  intros Hn Hr. split.
  - intros Hvalid. apply lookUpName_hit; [done|].
    unfold cached_name. rewrite Hr.
    destruct (Z.geb_spec (resolved_expiresAt r) (now_start sched)); [done | lia].
  - intros Hpast. split.
    + apply lookUpName_issued; [done|].
      unfold cached_name. rewrite Hr.
      destruct (Z.geb_spec (resolved_expiresAt r) (now_start sched)); [lia | done].
    + unfold requested, addressResolvers. simpl.
      destruct (providerForNetwork chainService network) as [p|]; simpl.
      * by exists [call_lookupAddress address].
      * by exists [].
Qed.

(** *** Forward resolution *)

Lemma eth_name_spec name : eth_name name = true ↔ ∃ p, name = p +:+ ".eth".
Proof.
  unfold eth_name. rewrite RegExpFacts.test_suffix_spec. split.
  - intros (u & v & -> & Hv).
    apply RegExpFacts.Lang_Cat in Hv as (a & b & -> & _ & Hb).
    apply RegExpFacts.Lang_lit in Hb as ->.
    exists (u +:+ a). by rewrite append_assoc.
  - intros (p & ->). exists p, ".eth". split; [done|].
    apply RegExpFacts.Lang_Cat. exists "", ".eth". split; [done|].
    split; [constructor | by apply RegExpFacts.Lang_lit].
Qed.

(** The shape check is coarse: any letter passes for a digit. *)
Example hex_shape_coarse : hex_shape "0xzz" = true ∧ hex_shape "vitalik" = false.
Proof. split; reflexivity. Qed.

(** C7. A name that does not end in ".eth" makes the call fail before the
    provider is asked anything.  For a name that does, a forward lookup
    that gives no address, or a value that fails the shape check of the
    code, gives "not found"; one that gives a value of the right shape
    gives the normalized address, announced by a "resolvedAddress" event. *)
Theorem lookUpEthereumAddress_spec name this :
  ((¬ ∃ p, name = p +:+ ".eth") →
   lookUpEthereumAddress name this
   = (throws (Error "Only .eth names can be resolved today."), this))
  ∧ ((∃ p, name = p +:+ ".eth") →
     ∀ reply, resolveName (providers_ethereum chainService) name = fulfilled reply →
       ((reply = None ∨ ∃ value, reply = Some value ∧ hex_shape value = false) →
        lookUpEthereumAddress name this
        = (returns None, started this [call_resolveName name]))
       ∧ (∀ value, reply = Some value → hex_shape value = true →
          (lookUpEthereumAddress name this).1
          = returns (Some (normalizeEVMAddress value))
          ∧ emitted (lookUpEthereumAddress name this).2
            = emitted this
              ++ [resolvedAddress
                    {| ra_from_name := name;
                       ra_resolved_addressNetwork :=
                         {| address := normalizeEVMAddress value;
                            network := ETHEREUM |};
                       ra_system := ENS |}]
          ∧ issued (lookUpEthereumAddress name this).2
            = issued this ++ [call_resolveName name]
          ∧ cachedResolvedNames (lookUpEthereumAddress name this).2
            = cachedResolvedNames this)).
Proof.
  unfold lookUpEthereumAddress. rewrite <- eth_name_spec. split.
  - intros H. apply not_true_is_false in H. by rewrite H.
  - intros -> reply Hreply. simpl.
    unfold await, mbind, M_bind, send. rewrite Hreply. simpl. split.
    + intros [->|(value & -> & Hshape)]; [done|].
      destruct value as [|c value]; [done|]. simpl. by rewrite Hshape.
    + intros value -> Hshape.
      destruct value as [|c value]; [done|]. simpl. by rewrite Hshape.
Qed.

(** *** The gateway rewriter *)

(** No value of the [protocol] getter is a bare scheme name. *)
Lemma protocol_neq url :
  String.eqb (URL.protocol url) "ipfs" = false
  ∧ String.eqb (URL.protocol url) "ar" = false.
Proof.
  unfold URL.protocol. split; apply String.eqb_neq.
  - destruct (URL.scheme url) as [|a [|b [|c [|d [|e s]]]]];
      cbv [String.append]; congruence.
  - destruct (URL.scheme url) as [|a [|b [|c s]]];
      cbv [String.append]; congruence.
Qed.

Lemma storageGatewayURL_id url : storageGatewayURL url = url.
Proof.
  unfold storageGatewayURL.
  destruct (protocol_neq url) as [-> ->]. done.
Qed.

(** *** Avatars *)

Lemma split_nonempty sep (s : string) : JS.split sep s ≠ [].
Proof.
  induction s as [|c s IH]; simpl; [done|].
  destruct (sep c); [done|]. by destruct (JS.split sep s).
Qed.

(** A word without separator that is followed by one is a piece. *)
Lemma split_word sep (w : string) d s :
  all_in (λ c, negb (sep c)) w = true → sep d = true →
  JS.split sep (w +:+ String d s) = w :: JS.split sep s.
Proof.
  intros Hw Hd. induction w as [|c w IH].
  - change ("" +:+ String d s) with (String d s). simpl. by rewrite Hd.
  - simpl in Hw. apply andb_true_iff in Hw as [Hc Hw].
    rewrite append_cons. simpl. rewrite IH by done.
    apply negb_true_iff in Hc. by rewrite Hc.
Qed.

(** A text record that matches the pattern has its first three pieces
    fixed, so that the fourth, the address of the token contract, is always
    there. *)
Lemma erc721_reference_parts avatar :
  erc721_reference avatar = true →
  ∃ rest,
    avatar = "eip155:1/erc721:" +:+ rest
    ∧ JS.split (λ c, bool_decide (c ∈ [":"; "/"]%char)) avatar
      = "eip155" :: "1" :: "erc721"
          :: JS.split (λ c, bool_decide (c ∈ [":"; "/"]%char)) rest.
Proof.
  unfold erc721_reference. rewrite RegExpFacts.test_prefix_spec.
  intros (u & rest & -> & Hu). apply RegExpFacts.Lang_lit in Hu as ->.
  exists rest. split; [done|].
  change ("eip155:1/erc721:" +:+ rest)
    with ("eip155" +:+ String ":" ("1" +:+ String "/" ("erc721" +:+ String ":" rest))).
  by rewrite !split_word.
Qed.

(** C6, as the code has it.  The avatar text record is an ERC-721
    reference that is not in the avatar cache.  Its segment of the token
    contract is always there, be it empty.  When the segment of the token
    id is absent, or when the metadata fetched is absent or has no image,
    the call gives what it gives for a plain URI: the text record itself as
    a URL, through the gateway rewriter ([TypeError] if the platform takes
    it for no URL); it stores nothing.  The token metadata is fetched
    neither when the token id is absent nor when it is not a number. *)
Theorem lookUpAvatar_erc721_fallback address network sched this this1 name resolver
    (resolved : option string) (avatar : string) :
  chainID network = "1" →
  lookUpName address network true sched this = (returns (Some name), this1) →
  name ≠ "" →
  getResolver (providers_ethereum chainService) name = fulfilled (Some resolver) →
  getAddress resolver = fulfilled resolved →
  sameEVMAddress resolved address = true →
  getText resolver "avatar" = fulfilled (Some avatar) →
  avatar ≠ "" →
  erc721_reference avatar = true →
  cachedEIP155AvatarURLs this1 !! JS.toLowerCase avatar = None →
  let parts := JS.split (λ c, bool_decide (c ∈ [":"; "/"]%char)) avatar in
  let this2 :=
    started this1 [call_getResolver name; call_getAddress; call_getText "avatar"] in
  let plain : completion (option URL.t) :=
    match URL_constructor avatar with
    | Some url => returns (Some (storageGatewayURL url))
    | None => throws TypeError
    end in
  (∃ erc721Address, parts !! 3%nat = Some erc721Address)
  ∧ (parts !! 4%nat = None →
     lookUpAvatar address network sched this = (plain, this2))
  ∧ (∀ erc721Address nftID,
       parts !! 3%nat = Some erc721Address → parts !! 4%nat = Some nftID →
       (JS.BigInt nftID = None →
        (lookUpAvatar address network sched this).2 = this2)
       ∧ (∀ tokenID metadata,
            JS.BigInt nftID = Some tokenID →
            getTokenMetadata (providers_ethereum chainService) erc721Address tokenID
            = fulfilled metadata →
            metadata ≫= (λ m, JS.truthy (image m)) = None →
            lookUpAvatar address network sched this
            = (plain, started this2 [call_getTokenMetadata erc721Address tokenID]))).
Proof.
  intros Hn Hname Hne Hres Haddr Hsame Htext Hav Hpat Hcache parts this2 plain.
  assert (Hprefix :
    lookUpAvatar address network sched this =
      (let plain : M (option URL.t) :=
         url ← new_URL URL_constructor avatar;
         mret (Some (storageGatewayURL url)) in
       match parts !! 3%nat, parts !! 4%nat with
       | Some erc721Address, Some nftID =>
           tokenID ←
             match JS.BigInt nftID with
             | Some n => mret n
             | None => throw SyntaxError
             end;
           metadata ←
             await (call_getTokenMetadata erc721Address tokenID)
               (getTokenMetadata (providers_ethereum chainService) erc721Address tokenID);
           match metadata ≫= (λ m, JS.truthy (image m)) with
           | Some image =>
               url ← new_URL URL_constructor image;
               let resolvedGateway := storageGatewayURL url in
               store_avatar avatar resolvedGateway;;
               mret (Some resolvedGateway)
           | None => plain
           end
       | _, _ => plain
       end) this2).
  { unfold lookUpAvatar. apply String.eqb_eq in Hn. rewrite Hn. simpl.
    unfold mbind at 1. unfold M_bind at 1. rewrite Hname.
    assert (Htruthy : ∀ s : string, s ≠ "" → JS.truthy (Some s) = Some s)
      by (by intros [|??]).
    rewrite (Htruthy name) by done.
    unfold mbind at 1. unfold M_bind at 1. unfold await at 1.
    unfold mbind at 1. unfold M_bind at 1. unfold send at 1.
    rewrite Hres. simpl.
    unfold mbind at 1. unfold M_bind at 1. unfold await at 1.
    unfold mbind at 1. unfold M_bind at 1. unfold send at 1.
    rewrite Haddr. simpl. rewrite Hsame. simpl.
    unfold mbind at 1. unfold M_bind at 1. unfold await at 1.
    unfold mbind at 1. unfold M_bind at 1. unfold send at 1.
    rewrite Htext. simpl.
    change (match avatar with "" => None | String _ _ => Some avatar end)
      with (JS.truthy (Some avatar)).
    rewrite (Htruthy avatar) by done.
    rewrite Hpat.
    unfold mbind at 1. unfold M_bind at 1. unfold read at 1.
    cbn [cachedEIP155AvatarURLs]. rewrite Hcache.
    unfold this2, started. simpl. by rewrite <- !app_assoc. }
  assert (Hplain :
    (url ← new_URL URL_constructor avatar;
     mret (Some (storageGatewayURL url))) this2
    = (plain, this2)).
  { unfold plain, new_URL. by destruct (URL_constructor avatar). }
  assert (H3 : ∃ erc721Address, parts !! 3%nat = Some erc721Address).
  { destruct (erc721_reference_parts avatar Hpat) as (rest & _ & Hparts).
    unfold parts. rewrite Hparts. simpl.
    destruct (JS.split _ rest) as [|w ws] eqn:Hsplit; [|by exists w].
    by apply split_nonempty in Hsplit. }
  split; [exact H3|].
  rewrite Hprefix. cbv zeta. split.
  - intros H4. rewrite H4. by destruct (parts !! 3%nat).
  - intros erc721Address nftID -> ->. split.
    + by intros ->.
    + intros tokenID metadata -> Hmeta Hnone. simpl.
      unfold mbind at 1. unfold M_bind at 1. unfold mret at 1. unfold M_ret at 1.
      unfold mbind at 1. unfold M_bind at 1. unfold await at 1.
      unfold mbind at 1. unfold M_bind at 1. unfold send at 1.
      rewrite Hmeta. simpl. rewrite Hnone.
      unfold plain, new_URL. by destruct (URL_constructor avatar).
Qed.

End Properties.

(** ** Faults of the strategies *)
Section Faults.
Context (SECOND : Z) (normalizeEVMAddress : string → string).
(** Two settings: in the second, a strategy answers "no match" where it
    throws in the first. *)
Context (chainService chainService' : ChainService)
  (preferenceService preferenceService' : PreferenceService).

Local Abbreviation lookUpName' :=
  (lookUpName SECOND normalizeEVMAddress chainService' preferenceService').
Local Abbreviation answers' :=
  (answers SECOND normalizeEVMAddress chainService' preferenceService').
Local Abbreviation requested' :=
  (requested SECOND normalizeEVMAddress chainService' preferenceService').
Local Abbreviation lookUpName :=
  (lookUpName SECOND normalizeEVMAddress chainService preferenceService).
Local Abbreviation answers :=
  (answers SECOND normalizeEVMAddress chainService preferenceService).
Local Abbreviation requested :=
  (requested SECOND normalizeEVMAddress chainService preferenceService).

(** C3. A strategy that throws does not make the call fail and does not
    keep the others from running: the call returns, every strategy has
    been started, and the first strategy that has a record gives the name.
    The fault is treated as a missing result: in a setting that differs
    only in that the strategy answers "no match" where it threw, the call
    returns the same and leaves the same state. *)
Theorem lookUpName_fault_isolated (address : string) (network : EVMNetwork)
    (checkCache : bool) (sched : Schedule) (this : NameService) (i : nat) (e : exn) :
  chainID network = "1" →
  completion_order sched ≡ₚ seq 0%nat 3%nat →
  answers address network sched !! i = Some (rejected e) →
  (∃ v, (lookUpName address network checkCache sched this).1 = returns v)
  ∧ ((if checkCache then cached_name this address (now_start sched) else None)
     = None →
     issued (lookUpName address network checkCache sched this).2
     = issued this ++ requested address network
     ∧ ∀ j r,
         answers address network sched !! j = Some (fulfilled (Some r)) →
         (∀ k r', (k < j)%nat →
            answers address network sched !! k ≠ Some (fulfilled (Some r'))) →
         (lookUpName address network checkCache sched this).1
         = returns (Some (resolved_name r)))
  ∧ (answers' address network sched !! i = Some (fulfilled None) →
     (∀ k, k ≠ i →
        answers' address network sched !! k = answers address network sched !! k) →
     requested' address network = requested address network →
     lookUpName' address network checkCache sched this
     = lookUpName address network checkCache sched this).
Proof.
  intros Hn Hperm Hi.
  destruct (if checkCache then cached_name this address (now_start sched) else None)
    as [name|] eqn:Hc.
  - destruct checkCache; [|done].
    rewrite !lookUpName_hit with (name := name) by done.
    split; [by eexists|]. split; [done|]. done.
  - split; [|split].
    + rewrite lookUpName_miss by done. destruct (first_record _); by eexists.
    + intros _. split; [by apply lookUpName_issued|].
      intros j r Hj Hfirst. rewrite lookUpName_miss by done.
      assert (first_record (answers address network sched) = Some r) as ->; [|done].
      apply first_record_Some. eauto.
    + intros Hi' Hother Hreq. rewrite !lookUpName_miss, Hreq by done.
      rewrite (first_record_ext (answers' address network sched)
                 (answers address network sched)); [done|].
      apply list_eq. intros k. rewrite !list_lookup_fmap.
      destruct (decide (k = i)) as [->|Hk].
      * by rewrite Hi, Hi'.
      * by rewrite Hother.
Qed.

End Faults.

(** ** Further properties of the name lookup *)

(** A promise that is not in the order of completion keeps the whole
    pending. *)
Lemma settle_in_order_untouched {A : Type} (pending : list (Z → settled A))
    now_at order i : i ∉ order → ∀ k slots,
  settle_in_order pending now_at k order slots !! i = slots !! i.
Proof.
  induction order as [|j order IH]; intros Hi k slots; simpl; [done|].
  apply not_elem_of_cons in Hi as [Hne Hi]. rewrite IH by done.
  destruct (pending !! j); [by rewrite list_lookup_insert_ne | done].
Qed.

Lemma allSettled_never {A : Type} (pending : list (Z → settled A)) sched i :
  (i < length pending)%nat → i ∉ completion_order sched →
  allSettled pending sched = None.
Proof.
  intros Hi Hni. unfold allSettled.
  destruct (mapM id _) as [results|] eqn:Hm; [|done].
  apply mapM_Some in Hm. rewrite Forall2_lookup in Hm. specialize (Hm i).
  rewrite settle_in_order_untouched, lookup_replicate_2 in Hm by done.
  inversion Hm as [x y Hxy|]. discriminate Hxy.
Qed.

Section NameLookup.
Context (SECOND : Z) (normalizeEVMAddress : string → string)
  (sameEVMAddress : option string → string → bool) (ETHEREUM : EVMNetwork)
  (getTokenMetadata : Provider → string → Z → settled (option ERC721Metadata))
  (URL_constructor : string → option URL.t)
  (chainService : ChainService) (preferenceService : PreferenceService).

Local Abbreviation lookUpName :=
  (lookUpName SECOND normalizeEVMAddress chainService preferenceService).
Local Abbreviation lookUpAvatar :=
  (lookUpAvatar SECOND normalizeEVMAddress sameEVMAddress getTokenMetadata
     URL_constructor chainService preferenceService).
Local Abbreviation lookUpEthereumAddress :=
  (lookUpEthereumAddress normalizeEVMAddress ETHEREUM chainService).
Local Abbreviation answers :=
  (answers SECOND normalizeEVMAddress chainService preferenceService).
Local Abbreviation requested :=
  (requested SECOND normalizeEVMAddress chainService preferenceService).

Implicit Types (address name : string) (network : EVMNetwork) (sched : Schedule)
  (this : NameService) (r : ResolvedNameRecord) (i j : nat) (checkCache : bool).

(** X1. On a network other than chain "1" both lookups fail at once: they
    throw, and the state is as before, so that nothing has been read from
    the cache, asked of a collaborator or emitted. *)
Theorem lookups_need_the_primary_network address network checkCache sched this :
  chainID network ≠ "1" →
  lookUpName address network checkCache sched this
  = (throws (Error "Only Ethereum mainnet is supported."), this)
  ∧ lookUpAvatar address network sched this
    = (throws (Error "Only Ethereum mainnet is supported."), this).
Proof.
  intros Hn. split; [by apply lookUpName_other_network|].
  unfold lookUpAvatar. apply String.eqb_neq in Hn. by rewrite Hn.
Qed.

(** X2. A name that has been resolved is served from the cache for the ten
    seconds that follow the moment the winning strategy settled: the first
    strategy, in the order of priority, that had a record.  A second call
    in that time returns the same name and leaves the state as it is, so
    that no collaborator is asked again; a call after that time starts the
    strategies again. *)
Theorem lookUpName_then_served_from_cache address network checkCache sched this name :
  chainID network = "1" →
  completion_order sched ≡ₚ seq 0%nat 3%nat →
  (if checkCache then cached_name this address (now_start sched) else None) = None →
  (lookUpName address network checkCache sched this).1 = returns (Some name) →
  ∃ i r,
    answers address network sched !! i = Some (fulfilled (Some r))
    ∧ (∀ j r', (j < i)%nat →
         answers address network sched !! j ≠ Some (fulfilled (Some r')))
    ∧ resolved_name r = name
    ∧ ∀ sched2,
        (now_start sched2 ≤ settled_at sched i + 10 * SECOND →
         lookUpName address network true sched2
           (lookUpName address network checkCache sched this).2
         = (returns (Some name), (lookUpName address network checkCache sched this).2))
        ∧ (settled_at sched i + 10 * SECOND < now_start sched2 →
           issued
             (lookUpName address network true sched2
                (lookUpName address network checkCache sched this).2).2
           = issued (lookUpName address network checkCache sched this).2
             ++ requested address network).
Proof.
  intros Hn Hperm Hmiss. rewrite lookUpName_miss by done.
  destruct (first_record _) as [r|] eqn:Hwin; simpl; [|done].
  intros [= <-]. apply first_record_Some in Hwin as (i & Hi & Hfirst).
  pose proof (answers_expiry _ _ _ _ _ _ _ _ _ Hi) as Hexp.
  exists i, r. split; [done|]. split; [done|]. split; [done|].
  intros sched2. split; intros Hnow.
  - apply lookUpName_hit; [done|].
    unfold cached_name. simpl. rewrite lookup_insert_eq, Hexp.
    destruct (Z.geb_spec (settled_at sched i + 10 * SECOND) (now_start sched2));
      [done | lia].
  - apply lookUpName_issued; [done|].
    unfold cached_name. simpl. rewrite lookup_insert_eq, Hexp.
    destruct (Z.geb_spec (settled_at sched i + 10 * SECOND) (now_start sched2));
      [lia | done].
Qed.

(** X3. Resolving again to the name that is cached announces nothing: a
    second call that goes past the cache (forced, or after expiry) in the
    same setting returns the same name, emits no event, and replaces the
    entry by one that expires ten seconds after the new resolution. *)
Theorem lookUpName_again_is_silent address network checkCache checkCache2
    sched sched2 this name :
  chainID network = "1" →
  completion_order sched ≡ₚ seq 0%nat 3%nat →
  completion_order sched2 ≡ₚ seq 0%nat 3%nat →
  (if checkCache then cached_name this address (now_start sched) else None) = None →
  (lookUpName address network checkCache sched this).1 = returns (Some name) →
  let this1 := (lookUpName address network checkCache sched this).2 in
  (if checkCache2 then cached_name this1 address (now_start sched2) else None) = None →
  (lookUpName address network checkCache2 sched2 this1).1 = returns (Some name)
  ∧ emitted (lookUpName address network checkCache2 sched2 this1).2 = emitted this1
  ∧ ∃ i r,
      (i < 3)%nat
      ∧ answers address network sched2 !! i = Some (fulfilled (Some r))
      ∧ cachedResolvedNames (lookUpName address network checkCache2 sched2 this1).2
          !! address = Some r
      ∧ resolved_name r = name
      ∧ resolved_expiresAt r = settled_at sched2 i + 10 * SECOND.
Proof.
  intros Hn Hperm Hperm2 Hmiss Hret this1 Hmiss2.
  assert (Hthis1 : ∃ r, first_record (answers address network sched) = Some r
                       ∧ resolved_name r = name
                       ∧ cachedResolvedNames this1 !! address = Some r).
  { unfold this1. revert Hret. rewrite lookUpName_miss by done.
    destruct (first_record _) as [r|]; simpl; [|done].
    intros [= <-]. exists r. by rewrite lookup_insert_eq. }
  destruct Hthis1 as (r & Hwin & Hname & Hcached).
  pose proof (first_record_timeless _ _
                (answers_timeless SECOND normalizeEVMAddress chainService
                   preferenceService address network sched sched2)) as Hsame.
  rewrite Hwin in Hsame. rewrite lookUpName_miss by done.
  destruct (first_record (answers address network sched2)) as [r2|] eqn:Hwin2;
    [|discriminate].
  injection Hsame as _ Hname2 _. simpl.
  split; [congruence|]. split.
  - rewrite Hcached. simpl. rewrite bool_decide_eq_false_2; [done|].
    intros Hne. apply Hne. congruence.
  - apply first_record_Some in Hwin2 as (i & Hi & _). exists i, r2.
    split.
    { apply lookup_lt_Some in Hi. unfold answers in Hi.
      by rewrite length_imap in Hi. }
    split; [done|]. split; [apply lookup_insert_eq|]. split; [congruence|].
    by eapply answers_expiry.
Qed.

(** The states a call of [lookUpName] can leave. *)
Lemma lookUpName_state address network checkCache sched this :
  ∃ this', (lookUpName address network checkCache sched this).2 = this'
    ∧ (this' = this
       ∨ this' = started this (requested address network)
       ∨ ∃ r, this' = stored (started this (requested address network)) address r).
Proof.
  unfold lookUpName. destruct (negb _); [by eexists; split; [|left]|].
  unfold mbind at 1. unfold M_bind at 1. unfold read at 1.
  destruct (if checkCache then _ else _) as [name|];
    [by eexists; split; [|left]|].
  unfold mbind at 1. unfold M_bind at 1. unfold send at 1.
  unfold mbind at 1. unfold M_bind at 1. unfold await_all.
  destruct (allSettled _ _) as [results|];
    [|by eexists; split; [|right; left]].
  unfold mret at 1, M_ret at 1.
  destruct (mjoin _) as [r|]; [|by eexists; split; [|right; left]].
  eexists. split; [reflexivity|]. right. right. exists r.
  unfold mbind, M_bind, read, store_name, stored, started. simpl.
  by case_bool_decide.
Qed.

(** X4. What a call of [lookUpName] can change, whatever the setting and
    the schedule: the avatar cache is never touched; the name cache keeps
    every entry and changes at the address of the call only; the events
    emitted before stay, followed by at most one, a "resolvedName" with the
    record now cached for the address; the requests sent before stay. *)
Theorem lookUpName_frame address network checkCache sched this :
  let this' := (lookUpName address network checkCache sched this).2 in
  cachedEIP155AvatarURLs this' = cachedEIP155AvatarURLs this
  ∧ (∀ a, a ≠ address →
       cachedResolvedNames this' !! a = cachedResolvedNames this !! a)
  ∧ (is_Some (cachedResolvedNames this !! address) →
     is_Some (cachedResolvedNames this' !! address))
  ∧ (emitted this' = emitted this
     ∨ ∃ r, emitted this' = emitted this ++ [resolvedName r]
            ∧ cachedResolvedNames this' !! address = Some r)
  ∧ issued this `prefix_of` issued this'.
Proof.
  intros this'. subst this'.
  destruct (lookUpName_state address network checkCache sched this)
    as (this' & -> & [-> | [-> | [r ->]]]); simpl.
  - split; [done|]. split; [done|]. split; [done|]. split; [by left | done].
  - split; [done|]. split; [done|]. split; [done|].
    split; [by left | by apply prefix_app_r].
  - split; [done|]. split; [by intros a Ha; rewrite lookup_insert_ne|].
    split; [by rewrite lookup_insert_eq|]. split; [|by apply prefix_app_r].
    case_bool_decide; [|by left].
    right. exists r. by rewrite lookup_insert_eq.
Qed.

(** X5. There is no timeout: when one of the strategies never settles, a
    call that has gone past the cache stays pending for ever, having
    started every strategy and having stored and emitted nothing. *)
Theorem lookUpName_waits_for_every_strategy address network checkCache sched this i :
  chainID network = "1" →
  (if checkCache then cached_name this address (now_start sched) else None) = None →
  (i < 3)%nat → i ∉ completion_order sched →
  lookUpName address network checkCache sched this
  = (never, started this (requested address network)).
Proof.
  intros Hn Hc Hi Hni. unfold lookUpName.
  apply String.eqb_eq in Hn. rewrite Hn. simpl.
  unfold mbind at 1. unfold M_bind at 1. unfold read at 1. rewrite Hc.
  unfold mbind at 1. unfold M_bind at 1. unfold send at 1.
  unfold mbind at 1. unfold M_bind at 1. unfold await_all.
  by rewrite (allSettled_never _ _ i).
Qed.

(** *** Further properties of the avatar lookup *)

Lemma provider_only_refl this : provider_only this this.
Proof.
  repeat split; [|done]. exists []. by rewrite app_nil_r.
Qed.

Lemma provider_only_trans this1 this2 this3 :
  provider_only this1 this2 → provider_only this2 this3 →
  provider_only this1 this3.
Proof.
  intros (Hn1 & He1 & (cs1 & Hi1 & Hc1) & Ha1) (Hn2 & He2 & (cs2 & Hi2 & Hc2) & Ha2).
  split; [congruence|]. split; [congruence|]. split; [|by auto].
  exists (cs1 ++ cs2). split; [by rewrite Hi2, Hi1, app_assoc|].
  by apply Forall_app.
Qed.

Lemma keeps_names_ret {A : Type} (a : A) : keeps_names (mret a).
Proof. intros this. apply provider_only_refl. Qed.

Lemma keeps_names_throw {A : Type} e : keeps_names (@throw A e).
Proof. intros this. apply provider_only_refl. Qed.

Lemma keeps_names_bind {A B : Type} (m : M A) (f : A → M B) :
  keeps_names m → (∀ a, keeps_names (f a)) → keeps_names (m ≫= f).
Proof.
  intros Hm Hf this. specialize (Hm this).
  unfold mbind, M_bind. destruct (m this) as [[a|e|] this1]; simpl in *; [|done..].
  eapply provider_only_trans; [done | apply Hf].
Qed.

Lemma keeps_names_read {B : Type} (f : NameService → M B) :
  (∀ this, keeps_names (f this)) → keeps_names (read ≫= f).
Proof. intros Hf this. apply (Hf this this). Qed.

Lemma keeps_names_await {A : Type} c (reply : settled A) :
  is_strategy_request c = false → keeps_names (await c reply).
Proof.
  intros Hc this. unfold await, mbind, M_bind, send.
  assert (provider_only this (started this [c])).
  { split; [done|]. split; [done|]. split; [|done]. exists [c].
    split; [done|]. by constructor. }
  by destruct reply.
Qed.

Lemma keeps_names_new_URL constructor s : keeps_names (new_URL constructor s).
Proof.
  unfold new_URL. destruct (constructor s);
    [apply keeps_names_ret | apply keeps_names_throw].
Qed.

Lemma keeps_names_store_avatar key url : keeps_names (store_avatar key url).
Proof.
  intros this. split; [done|]. split; [done|]. split.
  - exists []. by rewrite app_nil_r.
  - intros k Hk. simpl. destruct (decide (key = k)) as [->|Hne].
    + by rewrite lookup_insert_eq.
    + by rewrite lookup_insert_ne.
Qed.

(** Goals of the form [keeps_names m], along the structure of [m]. *)
Ltac keeps_names :=
  repeat lazymatch goal with
  | |- keeps_names (mret _) => apply keeps_names_ret
  | |- keeps_names (throw _) => apply keeps_names_throw
  | |- keeps_names (new_URL _ _) => apply keeps_names_new_URL
  | |- keeps_names (store_avatar _ _) => apply keeps_names_store_avatar
  | |- keeps_names (await _ _) => apply keeps_names_await; reflexivity
  | |- keeps_names (read ≫= _) => apply keeps_names_read; intros ?
  | |- keeps_names (_ ≫= _) => apply keeps_names_bind; [|intros ?]
  | |- keeps_names (match ?x with _ => _ end) => destruct x
  | |- keeps_names (let _ := _ in _) => cbv zeta
  end.

Lemma lookUpAvatar_provider_only address network sched this :
  chainID network = "1" →
  provider_only (lookUpName address network true sched this).2
    (lookUpAvatar address network sched this).2.
Proof.
  intros Hn. unfold lookUpAvatar. apply String.eqb_eq in Hn. rewrite Hn. simpl.
  unfold mbind at 1. unfold M_bind at 1.
  destruct (lookUpName address network true sched this) as [[name|e|] this1];
    simpl; [|apply provider_only_refl..].
  revert this1. refine (_ : keeps_names _).
  keeps_names.
Qed.

(** X6. Apart from what its [lookUpName] does, a call of [lookUpAvatar]
    emits nothing, leaves the name cache as it is, sends requests to the
    provider only (none of the strategies'), and loses no entry of the
    avatar cache. *)
Theorem lookUpAvatar_frame address network sched this :
  chainID network = "1" →
  let this1 := (lookUpName address network true sched this).2 in
  let this' := (lookUpAvatar address network sched this).2 in
  cachedResolvedNames this' = cachedResolvedNames this1
  ∧ emitted this' = emitted this1
  ∧ (∃ cs, issued this' = issued this1 ++ cs
           ∧ Forall (λ c, is_strategy_request c = false) cs)
  ∧ ∀ key, is_Some (cachedEIP155AvatarURLs this1 !! key) →
           is_Some (cachedEIP155AvatarURLs this' !! key).
Proof. intros Hn. by apply lookUpAvatar_provider_only. Qed.

Lemma truthy_Some (s : string) : s ≠ "" → JS.truthy (Some s) = Some s.
Proof. by destruct s. Qed.

Lemma truthy_inv (v : option string) (s : string) :
  JS.truthy v = Some s → v = Some s ∧ s ≠ "".
Proof. destruct v as [[|c w]|]; simpl; [done| |done]. by intros [= <-]. Qed.

Lemma lookUpAvatar_no_name address network sched this
    (found : option string) this1 :
  chainID network = "1" →
  lookUpName address network true sched this = (returns found, this1) →
  JS.truthy found = None →
  lookUpAvatar address network sched this = (returns None, this1).
Proof.
  intros Hn Hname Hnone. unfold lookUpAvatar.
  apply String.eqb_eq in Hn. rewrite Hn. cbn [negb].
  unfold mbind at 1. unfold M_bind at 1. rewrite Hname. cbv beta iota.
  by rewrite Hnone.
Qed.

Lemma lookUpAvatar_no_resolver address network sched this
    (found : option string) this1 name :
  chainID network = "1" →
  lookUpName address network true sched this = (returns found, this1) →
  JS.truthy found = Some name →
  getResolver (providers_ethereum chainService) name = fulfilled None →
  lookUpAvatar address network sched this
  = (returns None, started this1 [call_getResolver name]).
Proof.
  intros Hn Hname Hsome Hres. unfold lookUpAvatar.
  apply String.eqb_eq in Hn. rewrite Hn. cbn [negb].
  unfold mbind at 1. unfold M_bind at 1. rewrite Hname. cbv beta iota.
  rewrite Hsome.
  unfold mbind at 1. unfold M_bind at 1. unfold await at 1.
  unfold mbind at 1. unfold M_bind at 1. unfold send at 1.
  rewrite Hres. simpl. unfold mbind at 1. unfold M_bind at 1.
  unfold mret at 1, M_ret at 1.
  destruct (negb _); [done|].
  unfold mbind at 1. unfold M_bind at 1. by unfold mret at 1, M_ret at 1.
Qed.

Lemma lookUpAvatar_mismatch address network sched this
    (found : option string) this1 name resolver resolved :
  chainID network = "1" →
  lookUpName address network true sched this = (returns found, this1) →
  JS.truthy found = Some name →
  getResolver (providers_ethereum chainService) name = fulfilled (Some resolver) →
  getAddress resolver = fulfilled resolved →
  sameEVMAddress resolved address = false →
  lookUpAvatar address network sched this
  = (returns None, started this1 [call_getResolver name; call_getAddress]).
Proof.
  intros Hn Hname Hsome Hres Haddr Hsame. unfold lookUpAvatar.
  apply String.eqb_eq in Hn. rewrite Hn. cbn [negb].
  unfold mbind at 1. unfold M_bind at 1. rewrite Hname. cbv beta iota.
  rewrite Hsome.
  unfold mbind at 1. unfold M_bind at 1. unfold await at 1.
  unfold mbind at 1. unfold M_bind at 1. unfold send at 1.
  rewrite Hres. simpl.
  unfold mbind at 1. unfold M_bind at 1. unfold await at 1.
  unfold mbind at 1. unfold M_bind at 1. unfold send at 1.
  rewrite Haddr. simpl. rewrite Hsame. simpl.
  unfold started. simpl. by rewrite <- !app_assoc.
Qed.

(** The call from the text record on. *)
Lemma lookUpAvatar_at_text_record address network sched this this1 name text :
  reads_text_record SECOND normalizeEVMAddress sameEVMAddress chainService
    preferenceService address network sched this this1 name text →
  lookUpAvatar address network sched this =
    (match JS.truthy text with
     | None => mret None
     | Some avatar =>
         let plain : M (option URL.t) :=
           url ← new_URL URL_constructor avatar;
           mret (Some (storageGatewayURL url)) in
         if erc721_reference avatar then
           this ← read;
           match cachedEIP155AvatarURLs this !! JS.toLowerCase avatar with
           | Some url => mret (Some url)
           | None =>
               let parts :=
                 JS.split (λ c, bool_decide (c ∈ [":"; "/"]%char)) avatar in
               match parts !! 3%nat, parts !! 4%nat with
               | Some erc721Address, Some nftID =>
                   tokenID ←
                     match JS.BigInt nftID with
                     | Some n => mret n
                     | None => throw SyntaxError
                     end;
                   metadata ←
                     await (call_getTokenMetadata erc721Address tokenID)
                       (getTokenMetadata (providers_ethereum chainService)
                          erc721Address tokenID);
                   match metadata ≫= (λ m, JS.truthy (image m)) with
                   | Some image =>
                       url ← new_URL URL_constructor image;
                       let resolvedGateway := storageGatewayURL url in
                       store_avatar avatar resolvedGateway;;
                       mret (Some resolvedGateway)
                   | None => plain
                   end
               | _, _ => plain
               end
           end
         else plain
     end)
      (started this1 [call_getResolver name; call_getAddress; call_getText "avatar"]).
Proof.
  intros (Hn & Hname & Hne & resolver & resolved & Hres & Haddr & Hsame & Htext).
  unfold lookUpAvatar. apply String.eqb_eq in Hn. rewrite Hn. simpl.
  unfold mbind at 1. unfold M_bind at 1. rewrite Hname.
  rewrite (truthy_Some name) by done.
  unfold mbind at 1. unfold M_bind at 1. unfold await at 1.
  unfold mbind at 1. unfold M_bind at 1. unfold send at 1.
  rewrite Hres. simpl.
  unfold mbind at 1. unfold M_bind at 1. unfold await at 1.
  unfold mbind at 1. unfold M_bind at 1. unfold send at 1.
  rewrite Haddr. simpl. rewrite Hsame. simpl.
  unfold mbind at 1. unfold M_bind at 1. unfold await at 1.
  unfold mbind at 1. unfold M_bind at 1. unfold send at 1.
  rewrite Htext. simpl.
  unfold started. simpl. by rewrite <- !app_assoc.
Qed.

(** X7. The ways to "not found" of the avatar lookup, and what each has
    asked: with no name (or an empty one) nothing more is asked; when the
    name has no resolver, only the resolver is asked for; when the resolver
    does not point back to the address, the text record is not read; and
    when the text record is absent or empty, nothing is fetched. *)
Theorem lookUpAvatar_not_found address network sched this
    (found : option string) this1 :
  chainID network = "1" →
  lookUpName address network true sched this = (returns found, this1) →
  (JS.truthy found = None →
   lookUpAvatar address network sched this = (returns None, this1))
  ∧ ∀ name', JS.truthy found = Some name' →
      (getResolver (providers_ethereum chainService) name' = fulfilled None →
       lookUpAvatar address network sched this
       = (returns None, started this1 [call_getResolver name']))
      ∧ ∀ resolver resolved,
          getResolver (providers_ethereum chainService) name'
          = fulfilled (Some resolver) →
          getAddress resolver = fulfilled resolved →
          (sameEVMAddress resolved address = false →
           lookUpAvatar address network sched this
           = (returns None,
              started this1 [call_getResolver name'; call_getAddress]))
          ∧ ∀ text,
              sameEVMAddress resolved address = true →
              getText resolver "avatar" = fulfilled text →
              JS.truthy text = None →
              lookUpAvatar address network sched this
              = (returns None,
                 started this1 [call_getResolver name'; call_getAddress;
                                call_getText "avatar"]).
Proof.
  intros Hn Hname. split; [by eapply lookUpAvatar_no_name|].
  intros name' Hsome. split; [by eapply lookUpAvatar_no_resolver|].
  intros resolver resolved Hres Haddr.
  split; [by eapply lookUpAvatar_mismatch|].
  intros text Hsame Htext Hnone.
  apply truthy_inv in Hsome as [-> Hne].
  rewrite (lookUpAvatar_at_text_record _ _ _ _ this1 name' text).
  - by rewrite Hnone.
  - split; [done|]. split; [done|]. split; [done|]. eauto 10.
Qed.

(** X8. A text record that is no ERC-721 reference is taken as a URI: the
    call gives the URL the platform builds of it, through the gateway
    rewriter, fetches nothing and stores nothing in the avatar cache; it
    throws [TypeError] when the platform takes the record for no URL. *)
Theorem lookUpAvatar_plain_uri address network sched this this1 name (avatar : string) :
  reads_text_record SECOND normalizeEVMAddress sameEVMAddress chainService
    preferenceService address network sched this this1 name (Some avatar) →
  avatar ≠ "" →
  erc721_reference avatar = false →
  lookUpAvatar address network sched this
  = (match URL_constructor avatar with
     | Some url => returns (Some (storageGatewayURL url))
     | None => throws TypeError
     end,
     started this1 [call_getResolver name; call_getAddress; call_getText "avatar"]).
Proof.
  intros Hreads Hne Hpat.
  rewrite (lookUpAvatar_at_text_record _ _ _ _ _ _ _ Hreads).
  rewrite truthy_Some by done. cbv zeta. rewrite Hpat.
  unfold new_URL. by destruct (URL_constructor avatar).
Qed.

(** X9. An ERC-721 reference whose lower-case spelling is a key of the
    avatar cache is answered from the cache: the URL stored there is
    returned and no metadata is fetched. *)
Theorem lookUpAvatar_cached_reference address network sched this this1 name
    (avatar : string) (url : URL.t) :
  reads_text_record SECOND normalizeEVMAddress sameEVMAddress chainService
    preferenceService address network sched this this1 name (Some avatar) →
  avatar ≠ "" →
  erc721_reference avatar = true →
  cachedEIP155AvatarURLs this1 !! JS.toLowerCase avatar = Some url →
  lookUpAvatar address network sched this
  = (returns (Some url),
     started this1 [call_getResolver name; call_getAddress; call_getText "avatar"]).
Proof.
  intros Hreads Hne Hpat Hcached.
  rewrite (lookUpAvatar_at_text_record _ _ _ _ _ _ _ Hreads).
  rewrite truthy_Some by done. cbv zeta. rewrite Hpat.
  unfold mbind at 1. unfold M_bind at 1. unfold read at 1.
  cbn [cachedEIP155AvatarURLs started]. by rewrite Hcached.
Qed.

(** The call from the metadata fetch on. *)
Lemma lookUpAvatar_at_token address network sched this this1 name
    (avatar erc721Address nftID : string) (tokenID : Z) reply :
  reads_text_record SECOND normalizeEVMAddress sameEVMAddress chainService
    preferenceService address network sched this this1 name (Some avatar) →
  avatar ≠ "" →
  erc721_reference avatar = true →
  cachedEIP155AvatarURLs this1 !! JS.toLowerCase avatar = None →
  JS.split (λ c, bool_decide (c ∈ [":"; "/"]%char)) avatar !! 3%nat
  = Some erc721Address →
  JS.split (λ c, bool_decide (c ∈ [":"; "/"]%char)) avatar !! 4%nat = Some nftID →
  JS.BigInt nftID = Some tokenID →
  getTokenMetadata (providers_ethereum chainService) erc721Address tokenID = reply →
  lookUpAvatar address network sched this =
    match reply with
    | rejected e =>
        (throws e,
         started this1 [call_getResolver name; call_getAddress;
                        call_getText "avatar";
                        call_getTokenMetadata erc721Address tokenID])
    | fulfilled metadata =>
        (match metadata ≫= (λ m, JS.truthy (image m)) with
         | Some image =>
             url ← new_URL URL_constructor image;
             let resolvedGateway := storageGatewayURL url in
             store_avatar avatar resolvedGateway;;
             mret (Some resolvedGateway)
         | None =>
             url ← new_URL URL_constructor avatar;
             mret (Some (storageGatewayURL url))
         end)
          (started this1 [call_getResolver name; call_getAddress;
                          call_getText "avatar";
                          call_getTokenMetadata erc721Address tokenID])
    end.
Proof.
  intros Hreads Hne Hpat Hcache H3 H4 Hid Hreply.
  rewrite (lookUpAvatar_at_text_record _ _ _ _ _ _ _ Hreads).
  rewrite truthy_Some by done. cbv zeta. rewrite Hpat.
  unfold mbind at 1. unfold M_bind at 1. unfold read at 1.
  cbn [cachedEIP155AvatarURLs started]. rewrite Hcache, H3, H4, Hid.
  unfold mbind at 1. unfold M_bind at 1. unfold mret at 1. unfold M_ret at 1.
  unfold mbind at 1. unfold M_bind at 1. unfold await at 1.
  unfold mbind at 1. unfold M_bind at 1. unfold send at 1.
  rewrite Hreply. destruct reply as [metadata|e]; simpl.
  - by rewrite <- !app_assoc.
  - by rewrite <- !app_assoc.
Qed.

(** X10. An ERC-721 reference with token and image: the URL the platform
    builds of the image goes through the gateway rewriter and is returned,
    and it is stored in the avatar cache under the reference as it is
    written.  The cache is read under
    the lower-case spelling, so the entry is found again only when the
    reference has no upper-case letter. *)
Theorem lookUpAvatar_token_image address network sched this this1 name
    (avatar erc721Address nftID img : string) (tokenID : Z) metadata (url : URL.t) :
  reads_text_record SECOND normalizeEVMAddress sameEVMAddress chainService
    preferenceService address network sched this this1 name (Some avatar) →
  avatar ≠ "" →
  erc721_reference avatar = true →
  cachedEIP155AvatarURLs this1 !! JS.toLowerCase avatar = None →
  JS.split (λ c, bool_decide (c ∈ [":"; "/"]%char)) avatar !! 3%nat
  = Some erc721Address →
  JS.split (λ c, bool_decide (c ∈ [":"; "/"]%char)) avatar !! 4%nat = Some nftID →
  JS.BigInt nftID = Some tokenID →
  getTokenMetadata (providers_ethereum chainService) erc721Address tokenID
  = fulfilled (Some metadata) →
  JS.truthy (image metadata) = Some img →
  URL_constructor img = Some url →
  ∃ this',
    lookUpAvatar address network sched this
    = (returns (Some (storageGatewayURL url)), this')
    ∧ cachedEIP155AvatarURLs this'
      = <[avatar := storageGatewayURL url]> (cachedEIP155AvatarURLs this1)
    ∧ cachedEIP155AvatarURLs this' !! JS.toLowerCase avatar
      = (if decide (avatar = JS.toLowerCase avatar)
         then Some (storageGatewayURL url) else None)
    ∧ cachedResolvedNames this' = cachedResolvedNames this1
    ∧ issued this'
      = issued this1 ++ [call_getResolver name; call_getAddress;
                         call_getText "avatar";
                         call_getTokenMetadata erc721Address tokenID].
Proof.
  intros Hreads Hne Hpat Hcache H3 H4 Hid Hmeta Himg Hurl.
  rewrite (lookUpAvatar_at_token _ _ _ _ _ _ _ _ _ _ _
             Hreads Hne Hpat Hcache H3 H4 Hid Hmeta).
  simpl. rewrite Himg.
  unfold mbind, M_bind, new_URL, store_avatar, mret, M_ret. rewrite Hurl.
  eexists. split; [reflexivity|]. simpl.
  split; [done|]. split; [|done].
  case_decide as Hcase.
  - rewrite <- Hcase. apply lookup_insert_eq.
  - by rewrite lookup_insert_ne.
Qed.

(** X11. The ways an ERC-721 reference makes the call fail: a token id
    that is no number throws [SyntaxError] before anything is fetched; a
    fault of the metadata fetch is thrown on; an image that the platform
    takes for no URL throws [TypeError].  In each case nothing is stored in
    the avatar cache. *)
Theorem lookUpAvatar_token_failures address network sched this this1 name
    (avatar erc721Address nftID : string) :
  reads_text_record SECOND normalizeEVMAddress sameEVMAddress chainService
    preferenceService address network sched this this1 name (Some avatar) →
  avatar ≠ "" →
  erc721_reference avatar = true →
  cachedEIP155AvatarURLs this1 !! JS.toLowerCase avatar = None →
  JS.split (λ c, bool_decide (c ∈ [":"; "/"]%char)) avatar !! 3%nat
  = Some erc721Address →
  JS.split (λ c, bool_decide (c ∈ [":"; "/"]%char)) avatar !! 4%nat = Some nftID →
  (JS.BigInt nftID = None →
   lookUpAvatar address network sched this
   = (throws SyntaxError,
      started this1 [call_getResolver name; call_getAddress; call_getText "avatar"]))
  ∧ ∀ tokenID, JS.BigInt nftID = Some tokenID →
      (∀ e, getTokenMetadata (providers_ethereum chainService) erc721Address tokenID
            = rejected e →
         lookUpAvatar address network sched this
         = (throws e,
            started this1 [call_getResolver name; call_getAddress;
                           call_getText "avatar";
                           call_getTokenMetadata erc721Address tokenID]))
      ∧ (∀ metadata (img : string),
           getTokenMetadata (providers_ethereum chainService) erc721Address tokenID
           = fulfilled (Some metadata) →
           JS.truthy (image metadata) = Some img →
           URL_constructor img = None →
           lookUpAvatar address network sched this
           = (throws TypeError,
              started this1 [call_getResolver name; call_getAddress;
                             call_getText "avatar";
                             call_getTokenMetadata erc721Address tokenID])).
Proof.
  intros Hreads Hne Hpat Hcache H3 H4. split; [|intros tokenID Hid; split].
  - intros Hid.
    rewrite (lookUpAvatar_at_text_record _ _ _ _ _ _ _ Hreads).
    rewrite truthy_Some by done. cbv zeta. rewrite Hpat.
    unfold mbind at 1. unfold M_bind at 1. unfold read at 1.
    cbn [cachedEIP155AvatarURLs started]. by rewrite Hcache, H3, H4, Hid.
  - intros e Hmeta.
    by rewrite (lookUpAvatar_at_token _ _ _ _ _ _ _ _ _ _ _
                  Hreads Hne Hpat Hcache H3 H4 Hid Hmeta).
  - intros metadata img Hmeta Himg Hurl.
    rewrite (lookUpAvatar_at_token _ _ _ _ _ _ _ _ _ _ _
               Hreads Hne Hpat Hcache H3 H4 Hid Hmeta).
    simpl. rewrite Himg.
    unfold mbind, M_bind, new_URL. by rewrite Hurl.
Qed.

(** *** The subscribers *)

Local Abbreviation onNewAccountToTrack :=
  (onNewAccountToTrack SECOND normalizeEVMAddress chainService preferenceService).
Local Abbreviation onResolvedName :=
  (onResolvedName SECOND normalizeEVMAddress sameEVMAddress getTokenMetadata
     URL_constructor chainService preferenceService).

(** The record of a strategy carries the address and the network it was
    asked for. *)
Lemma answers_from address network sched i r :
  answers address network sched !! i = Some (fulfilled (Some r)) →
  from_addressNetwork r = {| address := address; network := network |}.
Proof.
  unfold answers, addressResolvers, ensAddressResolverFor,
    addressBookResolverFor, knownContractResolverFor.
  destruct i as [|[|[|i]]]; simpl; [| | |done].
  - destruct (providerForNetwork _ _) as [p|]; simpl; [|done].
    destruct (lookupAddress p address) as [[n|]|e]; simpl; [|done..].
    destruct (negb _); [done|]. by intros [= <-].
  - destruct (getAddressBook _) as [m|e]; simpl; [|done].
    destruct (m !! _); [|done]. by intros [= <-].
  - destruct (getKnownContractNames _) as [m|e]; simpl; [|done].
    destruct (m !! _); [|done]. by intros [= <-].
Qed.

(** The only failure of [lookUpName] is that of the network check. *)
Lemma lookUpName_throws address network checkCache sched this e :
  (lookUpName address network checkCache sched this).1 = throws e →
  e = Error "Only Ethereum mainnet is supported."
  ∧ lookUpName address network checkCache sched this = (throws e, this).
Proof.
  assert (Hrun : ∃ out, lookUpName address network checkCache sched this = out
    ∧ (out.1 = throws e →
       e = Error "Only Ethereum mainnet is supported." ∧ out = (throws e, this))).
  { unfold lookUpName. destruct (negb _).
    { eexists. split; [reflexivity|]. by intros [= <-]. }
    unfold mbind at 1. unfold M_bind at 1. unfold read at 1.
    destruct (if checkCache then _ else _) as [name|].
    { by eexists. }
    unfold mbind at 1. unfold M_bind at 1. unfold send at 1.
    unfold mbind at 1. unfold M_bind at 1. unfold await_all.
    destruct (allSettled _ _) as [results|]; [|by eexists].
    unfold mret at 1, M_ret at 1.
    destruct (mjoin _) as [r'|]; [|by eexists].
    unfold mbind, M_bind, read, store_name. simpl.
    case_bool_decide; by eexists. }
  destruct Hrun as (out & -> & H). exact H.
Qed.

(** X16. For an address that is a key of the name cache as an entry or not
    at all, the only way [lookUpName] fails is the network check: if a call
    throws, it has thrown the unsupported-network error and has left the
    state as it was.  No fault of a collaborator reaches the caller. *)
Theorem lookUpName_fails_on_the_network_only address network checkCache sched this e :
  own_key this address →
  (lookUpName address network checkCache sched this).1 = throws e →
  chainID network ≠ "1"
  ∧ e = Error "Only Ethereum mainnet is supported."
  ∧ (lookUpName address network checkCache sched this).2 = this.
Proof.
  intros _ Hthrows. pose proof Hthrows as Hcopy.
  apply lookUpName_throws in Hcopy as (-> & Hout).
  split; [|by rewrite Hout].
  intros Hn. destruct checkCache.
  - destruct (cached_name this address (now_start sched)) as [name|] eqn:Hc.
    + by rewrite (lookUpName_hit _ _ _ _ _ _ _ _ name) in Hthrows.
    + revert Hthrows. unfold lookUpName.
      apply String.eqb_eq in Hn. rewrite Hn. simpl.
      unfold mbind at 1. unfold M_bind at 1. unfold read at 1. rewrite Hc.
      unfold mbind at 1. unfold M_bind at 1. unfold send at 1.
      unfold mbind at 1. unfold M_bind at 1. unfold await_all.
      destruct (allSettled _ _) as [results|]; [|done].
      unfold mret at 1, M_ret at 1.
      destruct (mjoin _) as [r'|]; [|done].
      unfold mbind, M_bind, read, store_name. simpl. by case_bool_decide.
  - revert Hthrows. unfold lookUpName.
    apply String.eqb_eq in Hn. rewrite Hn. simpl.
    unfold mbind at 1. unfold M_bind at 1. unfold read at 1.
    unfold mbind at 1. unfold M_bind at 1. unfold send at 1.
    unfold mbind at 1. unfold M_bind at 1. unfold await_all.
    destruct (allSettled _ _) as [results|]; [|done].
    unfold mret at 1, M_ret at 1.
    destruct (mjoin _) as [r'|]; [|done].
    unfold mbind, M_bind, read, store_name. simpl. by case_bool_decide.
Qed.

(** X12. Neither subscriber lets a failure out: whatever the lookup does,
    the subscriber of "newAccountToTrack" and the one of "resolvedName" do
    not throw; what the lookup throws is what they hand to the logger. *)
Theorem subscribers_do_not_throw (addressNetwork : AddressOnNetwork) r sched this :
  (∀ e, (onNewAccountToTrack addressNetwork sched this).1 ≠ throws e)
  ∧ (∀ e, (onResolvedName r sched this).1 ≠ throws e)
  ∧ (∀ e,
       (lookUpName (address addressNetwork) (network addressNetwork) true sched this).1
       = throws e →
       onNewAccountToTrack addressNetwork sched this
       = (returns (Some (log_error "Error fetching ENS name for address"
                           (address addressNetwork) e)),
          this))
  ∧ (∀ e,
       (lookUpAvatar (address (from_addressNetwork r))
          (network (from_addressNetwork r)) sched this).1 = throws e →
       (onResolvedName r sched this).1
       = returns (Some (log_error "Error fetching avatar for address"
                          (address (from_addressNetwork r)) e))).
Proof.
  split; [|split; [|split]].
  - intros e. unfold onNewAccountToTrack. destruct addressNetwork as [a n].
    unfold try_catch, mbind, M_bind.
    by destruct (lookUpName a n true sched this) as [[v|e'|] this1].
  - intros e. unfold onResolvedName. destruct (from_addressNetwork r) as [a n].
    unfold try_catch, mbind, M_bind.
    by destruct (lookUpAvatar a n sched this) as [[[v|]|e'|] this1].
  - intros e. unfold onNewAccountToTrack. destruct addressNetwork as [a n]. simpl.
    unfold try_catch, mbind, M_bind.
    intros Hthrows. apply lookUpName_throws in Hthrows as (-> & Hout).
    by rewrite Hout.
  - intros e. unfold onResolvedName. destruct (from_addressNetwork r) as [a n]. simpl.
    unfold try_catch, mbind, M_bind.
    destruct (lookUpAvatar a n sched this) as [[[v|]|e'|] this1]; simpl; try done.
    by intros [= ->].
Qed.

(** X13. The record expiry avoids resolution loops: when a call of
    [lookUpName] has stored a record and the subscriber of "resolvedName"
    runs on it before the record expires, the name lookup inside the
    avatar lookup is answered from the cache.  The subscriber starts no
    strategy, leaves the name cache as it is, and emits no "resolvedName":
    at most one "resolvedAvatar". *)
Theorem resolvedName_subscriber_does_not_loop address network checkCache
    sched sched2 this name :
  chainID network = "1" →
  completion_order sched ≡ₚ seq 0%nat 3%nat →
  (if checkCache then cached_name this address (now_start sched) else None) = None →
  (lookUpName address network checkCache sched this).1 = returns (Some name) →
  let this1 := (lookUpName address network checkCache sched this).2 in
  ∃ r,
    cachedResolvedNames this1 !! address = Some r
    ∧ (now_start sched2 ≤ resolved_expiresAt r →
       let this2 := (onResolvedName r sched2 this1).2 in
       cachedResolvedNames this2 = cachedResolvedNames this1
       ∧ (∃ cs, issued this2 = issued this1 ++ cs
                ∧ Forall (λ c, is_strategy_request c = false) cs)
       ∧ (emitted this2 = emitted this1
          ∨ ∃ a, emitted this2 = emitted this1 ++ [resolvedAvatar a])).
Proof.
  intros Hn Hperm Hmiss Hret this1. subst this1. revert Hret.
  rewrite lookUpName_miss by done.
  destruct (first_record _) as [r|] eqn:Hwin; simpl; [|done].
  intros [= <-]. exists r. split; [apply lookup_insert_eq|].
  intros Hvalid.
  apply first_record_Some in Hwin as (i & Hi & _).
  set (this1 := stored (started this (requested address network)) address r).
  assert (Hhit : lookUpName address network true sched2 this1
                 = (returns (Some (resolved_name r)), this1)).
  { apply lookUpName_hit; [done|]. unfold cached_name, this1. simpl.
    rewrite lookup_insert_eq.
    destruct (Z.geb_spec (resolved_expiresAt r) (now_start sched2)); [done | lia]. }
  pose proof (lookUpAvatar_provider_only address network sched2 this1 Hn) as Hframe.
  rewrite Hhit in Hframe. simpl in Hframe.
  unfold onResolvedName. rewrite (answers_from _ _ _ _ _ Hi).
  unfold try_catch, mbind, M_bind.
  destruct (lookUpAvatar address network sched2 this1) as [[[v|]|e'|] this2];
    destruct Hframe as (Hnames & Hemitted & Hissued & _); simpl in *.
  - split; [done|]. split; [done|]. right. eexists. by rewrite Hemitted.
  - split; [done|]. split; [done|]. by left.
  - split; [done|]. split; [done|]. by left.
  - split; [done|]. split; [done|]. by left.
Qed.

(** *** The strategies and the forward lookup *)

(** X14. The address book and the known-contract table are read under the
    normalized address: two spellings that normalize to the same address
    get the same answer from each of them.  The record produced carries
    the address as it was given. *)
Theorem table_strategies_normalize (f : NameResolverFunction)
    (address1 address2 : string) network (now1 now2 : Z) :
  f ∈ [addressBookResolverFor SECOND normalizeEVMAddress preferenceService;
       knownContractResolverFor SECOND normalizeEVMAddress preferenceService] →
  normalizeEVMAddress address1 = normalizeEVMAddress address2 →
  and_then (fmap resolved_name)
    (resume (f {| address := address1; network := network |}) now1)
  = and_then (fmap resolved_name)
      (resume (f {| address := address2; network := network |}) now2)
  ∧ ∀ r,
      resume (f {| address := address1; network := network |}) now1
      = fulfilled (Some r) →
      from_addressNetwork r = {| address := address1; network := network |}.
Proof.
  intros Hf Hsame.
  repeat (apply elem_of_cons in Hf as [->|Hf]); [| |by apply elem_of_nil in Hf];
    simpl; rewrite Hsame.
  - destruct (getAddressBook preferenceService) as [m|e]; simpl; [|done].
    destruct (m !! _); [|done]. split; [done|]. by intros r [= <-].
  - destruct (getKnownContractNames preferenceService) as [m|e]; simpl; [|done].
    destruct (m !! _); [|done]. split; [done|]. by intros r [= <-].
Qed.

(** X15. The forward lookup keeps nothing: whatever the name and the
    answer, neither cache is touched, at most the one request is sent, and
    a fault of the provider is thrown on, with no event. *)
Theorem lookUpEthereumAddress_frame name this :
  cachedResolvedNames (lookUpEthereumAddress name this).2 = cachedResolvedNames this
  ∧ cachedEIP155AvatarURLs (lookUpEthereumAddress name this).2
    = cachedEIP155AvatarURLs this
  ∧ (issued (lookUpEthereumAddress name this).2 = issued this
     ∨ issued (lookUpEthereumAddress name this).2
       = issued this ++ [call_resolveName name])
  ∧ ∀ e,
      eth_name name = true →
      resolveName (providers_ethereum chainService) name = rejected e →
      lookUpEthereumAddress name this
      = (throws e, started this [call_resolveName name]).
Proof.
  assert (Hrun : ∃ out, lookUpEthereumAddress name this = out
    ∧ cachedResolvedNames out.2 = cachedResolvedNames this
    ∧ cachedEIP155AvatarURLs out.2 = cachedEIP155AvatarURLs this
    ∧ (issued out.2 = issued this ∨ issued out.2 = issued this ++ [call_resolveName name])
    ∧ ∀ e, eth_name name = true →
           resolveName (providers_ethereum chainService) name = rejected e →
           out = (throws e, started this [call_resolveName name])).
  { unfold lookUpEthereumAddress. destruct (eth_name name); simpl.
    2:{ eexists. split; [reflexivity|]. simpl. repeat split; auto. done. }
    unfold await, mbind, M_bind, send.
    destruct (resolveName _ name) as [[[|c value]|]|e]; simpl.
    - eexists. split; [reflexivity|]. simpl. repeat split; auto. done.
    - destruct (negb _); eexists; (split; [reflexivity|]); simpl;
        repeat split; auto; done.
    - eexists. split; [reflexivity|]. simpl. repeat split; auto. done.
    - eexists. split; [reflexivity|]. simpl. repeat split; auto.
      by intros e' _ [= ->]. }
  destruct Hrun as (out & -> & H1 & H2 & H3 & H4). auto.
Qed.

End NameLookup.

(** ** Which names the reverse lookup accepts *)

Lemma Lang_upto p n : ∀ w,
  RegExp.Lang (RegExp.upto n (RegExp.Cls p)) w
  ↔ (String.length w ≤ n)%nat ∧ all_in p w = true.
Proof.
  induction n as [|n IH]; intros w; simpl.
  - rewrite RegExpFacts.Lang_Eps. split.
    + by intros ->.
    + intros [Hlen _]. destruct w; [done | simpl in Hlen; lia].
  - rewrite RegExpFacts.Lang_Alt, RegExpFacts.Lang_Eps, RegExpFacts.Lang_Cat. split.
    + intros [-> | (u & v & -> & Hu & Hv)]; [simpl; split; [lia | done]|].
      apply RegExpFacts.Lang_Cls in Hu as (c & -> & Hc).
      apply IH in Hv as [Hlen Hall].
      change (String c "" +:+ v) with (String c v). simpl.
      rewrite Hc, Hall. split; [lia | done].
    + intros [Hlen Hall]. destruct w as [|c w]; [by left|]. right.
      simpl in Hlen, Hall. apply andb_true_iff in Hall as [Hc Hall].
      exists (String c ""), w. split; [done|]. split.
      * apply RegExpFacts.Lang_Cls. eauto.
      * apply IH. split; [lia | done].
Qed.

Lemma Lang_label u :
  RegExp.Lang label_re u
  ↔ ∃ c e w, u = String c (String e w)
             ∧ RegExp.alnum c = true ∧ RegExp.alnum_dash e = true
             ∧ (String.length w ≤ 61)%nat ∧ all_in RegExp.alnum_dash w = true.
Proof.
  unfold label_re, RegExp.range. simpl.
  rewrite RegExpFacts.Lang_Cat. split.
  - intros (a & b & -> & Ha & Hb).
    apply RegExpFacts.Lang_Cls in Ha as (c & -> & Hc).
    apply RegExpFacts.Lang_Cat in Hb as (b1 & b2 & -> & Hb1 & Hb2).
    apply RegExpFacts.Lang_Cls in Hb1 as (e & -> & He).
    apply (Lang_upto RegExp.alnum_dash 61) in Hb2 as [Hlen Hall].
    exists c, e, b2. done.
  - intros (c & e & w & -> & Hc & He & Hlen & Hall).
    exists (String c ""), (String e w). split; [done|]. split.
    + apply RegExpFacts.Lang_Cls. eauto.
    + apply RegExpFacts.Lang_Cat. exists (String e ""), w. split; [done|]. split.
      * apply RegExpFacts.Lang_Cls. eauto.
      * by apply (Lang_upto RegExp.alnum_dash 61).
Qed.

(** X17. The pattern of the reverse lookup checks the start of the name
    only: a name passes exactly when it begins with a label of 2 to 63
    characters (a letter or digit, then letters, digits or hyphens), a dot,
    and then a letter or digit followed by a letter, digit or hyphen.
    What comes after is not looked at. *)
Theorem domain_name_spec (name : string) :
  domain_name name = true ↔
  ∃ c w d e rest,
    name = String c w +:+ "." +:+ String d (String e rest)
    ∧ RegExp.alnum c = true
    ∧ (1 ≤ String.length w ≤ 62)%nat
    ∧ all_in RegExp.alnum_dash w = true
    ∧ RegExp.alnum d = true
    ∧ RegExp.alnum_dash e = true.
Proof.
  unfold domain_name. rewrite RegExpFacts.test_prefix_spec. split.
  - intros (u & v & -> & Hu).
    apply RegExpFacts.Lang_Cat in Hu as (l1 & u1 & -> & Hl1 & Hu1).
    apply RegExpFacts.Lang_Cat in Hu1 as (dt & u2 & -> & Hdt & Hu2).
    apply RegExpFacts.Lang_Cat in Hu2 as (st & l2 & -> & Hst & Hl2).
    apply Lang_label in Hl1 as (c & e1 & w1 & -> & Hc & He1 & Hlen1 & Hall1).
    apply RegExpFacts.Lang_Cls in Hdt as (x & -> & Hx).
    apply Ascii.eqb_eq in Hx as <-.
    assert (Hstart : ∃ d e rest, st +:+ l2 = String d (String e rest)
                       ∧ RegExp.alnum d = true ∧ RegExp.alnum_dash e = true).
    { destruct st as [|a st].
      - apply Lang_label in Hl2 as (d & e & w & -> & Hd & He & _). eauto 10.
      - apply RegExpFacts.Lang_Star_cons in Hst as (p & q & -> & Hp & _).
        apply RegExpFacts.Lang_Cat in Hp as (lab & dt' & Heq & Hlab & _).
        apply Lang_label in Hlab as (d & e & w & -> & Hd & He & _).
        rewrite !append_cons in Heq. injection Heq as -> Heq.
        destruct p as [|e' p]; [discriminate|]. injection Heq as -> Heq.
        exists d, e, (p +:+ q +:+ l2). by rewrite !append_cons, append_assoc. }
    destruct Hstart as (d & e & rest & Hrest & Hd & He).
    exists c, (String e1 w1), d, e, (rest +:+ v).
    split.
    { rewrite !append_assoc. rewrite <- (append_assoc st l2 v), Hrest.
      by rewrite !append_cons. }
    simpl. rewrite He1, Hall1. repeat split; (done || lia).
  - intros (c & w & d & e & rest & -> & Hc & Hlen & Hall & Hd & He).
    exists (String c w +:+ "." +:+ String d (String e "")), rest. split.
    { by rewrite !append_assoc, !append_cons. }
    destruct w as [|e1 w1]; [simpl in Hlen; lia|].
    simpl in Hlen, Hall. apply andb_true_iff in Hall as [He1 Hall1].
    apply RegExpFacts.Lang_Cat. eexists _, _. split; [reflexivity|]. split.
    { apply Lang_label. exists c, e1, w1. repeat split; (done || lia). }
    apply RegExpFacts.Lang_Cat. exists ".", (String d (String e "")).
    split; [done|]. split.
    { apply RegExpFacts.Lang_Cls. exists "."%char. split; [done|].
      apply Ascii.eqb_refl. }
    apply RegExpFacts.Lang_Cat. exists "", (String d (String e "")).
    split; [done|]. split; [constructor|].
    apply Lang_label. exists d, e, "". repeat split; (done || simpl; lia).
Qed.

Section Repository.
Context (SECOND : Z) (normalizeEVMAddress : string → string)
  (chainService : ChainService).

(** X18. When the reverse-lookup strategy has a record: exactly when the
    network has a provider, the provider answers with a name of at most
    253 characters that passes the pattern; the record then carries that
    name unchanged, the address as given, the tag ENS and an expiry ten
    seconds ahead.  In every other case that does not fail the strategy
    answers "no match", and it fails only with the fault of the provider. *)
Theorem ens_strategy_spec (address : string) (network : EVMNetwork) (now : Z)
    (answer : settled (option ResolvedNameRecord)) :
  resume (ensAddressResolverFor SECOND chainService
            {| address := address; network := network |}) now = answer →
  (∀ r, answer = fulfilled (Some r) ↔
     ∃ provider name,
       providerForNetwork chainService network = Some provider
       ∧ lookupAddress provider address = fulfilled (Some name)
       ∧ (String.length name ≤ 253)%nat
       ∧ domain_name name = true
       ∧ r = {| from_addressNetwork := {| address := address; network := network |};
                resolved_name := name;
                resolved_expiresAt := now + 10 * SECOND;
                system := ENS |})
  ∧ (∀ e, answer = rejected e ↔
       ∃ provider,
         providerForNetwork chainService network = Some provider
         ∧ lookupAddress provider address = rejected e).
Proof.
  intros <-. unfold ensAddressResolverFor, MINIMUM_RECORD_EXPIRY. split.
  - intros r. split.
    + destruct (providerForNetwork chainService network) as [p|]; simpl; [|done].
      destruct (lookupAddress p address) as [[name|]|e] eqn:Hanswer; simpl;
        [|done..].
      destruct (String.length name <=? 253)%nat eqn:Hlen; simpl; [|done].
      destruct (domain_name name) eqn:Hdom; simpl; [|done].
      intros [= <-]. exists p, name. apply Nat.leb_le in Hlen. done.
    + intros (p & name & -> & Hanswer & Hlen & Hdom & ->). simpl.
      rewrite Hanswer. simpl. apply Nat.leb_le in Hlen. by rewrite Hlen, Hdom.
  - intros e. split.
    + destruct (providerForNetwork chainService network) as [p|]; simpl; [|done].
      destruct (lookupAddress p address) as [name|e'] eqn:Hanswer; simpl; [done|].
      intros [= <-]. eauto.
    + intros (p & -> & Hanswer). simpl. by rewrite Hanswer.
Qed.

(** X19. With the preference service as the repository implements it, the
    address book never has a name, and a call that goes past the cache
    returns the name of the reverse lookup when it has one; failing that,
    "0x Router" for the addresses that normalize like the built-in
    contract address, and "not found" for all the others. *)
Theorem lookUpName_with_repository_preferences (address : string)
    (network : EVMNetwork) (checkCache : bool) (sched : Schedule)
    (this : NameService) :
  chainID network = "1" →
  completion_order sched ≡ₚ seq 0%nat 3%nat →
  (if checkCache then cached_name this address (now_start sched) else None) = None →
  (lookUpName SECOND normalizeEVMAddress chainService
     (PreferenceService_create normalizeEVMAddress)
     address network checkCache sched this).1
  = returns
      match name_of (resume (ensAddressResolverFor SECOND chainService
                               {| address := address; network := network |})
                       (settled_at sched 0)) with
      | Some name => Some name
      | None =>
          if decide (normalizeEVMAddress address
                     = normalizeEVMAddress "0xDef1C0ded9bec7F1a1670819833240f027b25EfF")
          then Some "0x Router" else None
      end.
Proof.
  intros Hn Hperm Hmiss. rewrite lookUpName_miss by done.
  unfold answers, addressResolvers. simpl imap.
  rewrite !first_record_cons. unfold name_of, ensAddressResolverFor.
  assert (Htable :
    (match
       (if decide (normalizeEVMAddress address
                   = normalizeEVMAddress "0xDef1C0ded9bec7F1a1670819833240f027b25EfF")
        then Some "0x Router" else None)
     with
     | Some name => Some name
     | None => None
     end : option string)
    = BUILT_IN_CONTRACT_NAMES normalizeEVMAddress !! normalizeEVMAddress address).
  { unfold BUILT_IN_CONTRACT_NAMES. case_decide as Hcase.
    - by rewrite <- Hcase, lookup_singleton_eq.
    - by rewrite lookup_singleton_ne. }
  destruct (providerForNetwork chainService network) as [p|]; simpl.
  - destruct (lookupAddress p address) as [[n|]|e]; simpl.
    + destruct (negb _); simpl; [|done].
      rewrite <- Htable. by case_decide.
    + rewrite <- Htable. by case_decide.
    + rewrite <- Htable. by case_decide.
  - rewrite <- Htable. by case_decide.
Qed.

End Repository.

(** ** The gateway helper *)

Lemma set_protocol_keeps value u :
  URL.query (URL.set_protocol value u) = URL.query u
  ∧ URL.fragment (URL.set_protocol value u) = URL.fragment u
  ∧ URL.opaque (URL.set_protocol value u) = URL.opaque u.
Proof.
  unfold URL.set_protocol. destruct (URL.cut _ _) as [sch rest].
  destruct (negb _); [done|]. by destruct (_ && _).
Qed.

Lemma set_hostname_keeps value u :
  URL.query (URL.set_hostname value u) = URL.query u
  ∧ URL.fragment (URL.set_hostname value u) = URL.fragment u
  ∧ URL.opaque (URL.set_hostname value u) = URL.opaque u
  ∧ URL.scheme (URL.set_hostname value u) = URL.scheme u
  ∧ (URL.opaque u = true → URL.set_hostname value u = u).
Proof.
  unfold URL.set_hostname.
  destruct (URL.opaque u) eqn:Ho; [done|].
  destruct (_ && _); simpl; repeat split; done.
Qed.

Lemma set_pathname_keeps value u :
  URL.query (URL.set_pathname value u) = URL.query u
  ∧ URL.fragment (URL.set_pathname value u) = URL.fragment u
  ∧ URL.scheme (URL.set_pathname value u) = URL.scheme u
  ∧ (URL.opaque u = true → URL.set_pathname value u = u).
Proof.
  unfold URL.set_pathname.
  destruct (URL.opaque u) eqn:Ho; simpl; repeat split; done.
Qed.

(** X20. [changeURLProtocolAndBase] keeps the query string and the
    fragment of the URL, whatever the base.  Against either gateway it
    cannot give a storage URI the scheme of the gateway: the scheme of a
    URL that is not special (as "ipfs" and "ar" are not) stays, and a URL
    with an opaque path comes back unchanged. *)
Theorem changeURLProtocolAndBase_keeps (url baseURL : URL.t) :
  URL.query (changeURLProtocolAndBase url baseURL) = URL.query url
  ∧ URL.fragment (changeURLProtocolAndBase url baseURL) = URL.fragment url
  ∧ (URL.is_special (URL.scheme url) = false →
     baseURL ∈ [ipfsGateway; arweaveGateway] →
     URL.scheme (changeURLProtocolAndBase url baseURL) = URL.scheme url
     ∧ (URL.opaque url = true → changeURLProtocolAndBase url baseURL = url)).
Proof.
  unfold changeURLProtocolAndBase. cbv zeta.
  set (u1 := URL.set_protocol (URL.protocol baseURL) url).
  set (u2 := URL.set_hostname (URL.hostname baseURL) u1).
  set (value := URL.pathname baseURL +:+ "/" +:+ URL.hostname url +:+ "/"
                +:+ URL.pathname url).
  destruct (set_protocol_keeps (URL.protocol baseURL) url) as (Hq1 & Hf1 & Ho1).
  destruct (set_hostname_keeps (URL.hostname baseURL) u1)
    as (Hq2 & Hf2 & Ho2 & Hs2 & Hid2).
  destruct (set_pathname_keeps value u2) as (Hq3 & Hf3 & Hs3 & Hid3).
  fold u1 in Hq1, Hf1, Ho1. fold u2 in Hq2, Hf2, Ho2, Hs2, Hid2.
  split; [congruence|]. split; [congruence|].
  intros Hspecial Hbase.
  assert (Hu1 : u1 = url).
  { unfold u1, URL.set_protocol.
    repeat (apply elem_of_cons in Hbase as [->|Hbase]);
      [| |by apply elem_of_nil in Hbase].
    - change (URL.cut (Ascii.eqb ":")
                (URL.remove URL.tab_or_newline (URL.protocol ipfsGateway)))
        with ("https", Some ""). cbv beta iota.
      change (negb (RegExp.test_whole URL.scheme_re "https")) with false.
      cbv beta iota.
      rewrite (bool_decide_eq_false_2 (URL.is_special _ = _)); [done|].
      rewrite Hspecial. intros H. vm_compute in H. discriminate H.
    - change (URL.cut (Ascii.eqb ":")
                (URL.remove URL.tab_or_newline (URL.protocol arweaveGateway)))
        with ("https", Some ""). cbv beta iota.
      change (negb (RegExp.test_whole URL.scheme_re "https")) with false.
      cbv beta iota.
      rewrite (bool_decide_eq_false_2 (URL.is_special _ = _)); [done|].
      rewrite Hspecial. intros H. vm_compute in H. discriminate H. }
  split; [congruence|].
  intros Hopaque. rewrite Hid3, Hid2, Hu1; congruence.
Qed.

(** ** The statements on the concrete setting *)

Lemma schedule_complete :
  completion_order Example.schedule ≡ₚ seq 0%nat 3%nat.
Proof. exact (Permutation_app_comm [2%nat] [0%nat; 1%nat]). Qed.

(** The reverse lookup and the address book both have a name; the reverse
    lookup wins although it settles second. *)
Lemma lookUpName_priority_witness :
  (lookUpName Example.SECOND Example.normalizeEVMAddress
     (Example.chain (fulfilled (Some "vitalik.eth")) "")
     (Example.preferences (fulfilled Example.book))
     Example.account Example.ETHEREUM true Example.schedule NameService_create).1
  = returns (Some "vitalik.eth").
Proof.
  refine (proj1 (proj2
    (lookUpName_priority Example.SECOND Example.normalizeEVMAddress
       (Example.chain (fulfilled (Some "vitalik.eth")) "")
       (Example.preferences (fulfilled Example.book))
       Example.account Example.ETHEREUM true Example.schedule NameService_create
       0%nat (Example.record "vitalik.eth" 15002) _ _ _ _ _))).
  - reflexivity.
  - exact schedule_complete.
  - reflexivity.
  - reflexivity.
  - intros j r' Hj. lia.
Defined.

(** The reverse lookup fails and the address book has a name. *)
Lemma lookUpName_fault_isolated_witness :
  (lookUpName Example.SECOND Example.normalizeEVMAddress
     (Example.chain (rejected (Fault "rpc")) "")
     (Example.preferences (fulfilled Example.book))
     Example.account Example.ETHEREUM true Example.schedule NameService_create).1
  = returns (Some "Vitalik")
  ∧ lookUpName Example.SECOND Example.normalizeEVMAddress
      (Example.chain (fulfilled None) "")
      (Example.preferences (fulfilled Example.book))
      Example.account Example.ETHEREUM true Example.schedule NameService_create
    = lookUpName Example.SECOND Example.normalizeEVMAddress
        (Example.chain (rejected (Fault "rpc")) "")
        (Example.preferences (fulfilled Example.book))
        Example.account Example.ETHEREUM true Example.schedule NameService_create.
Proof.
  destruct
    (lookUpName_fault_isolated Example.SECOND Example.normalizeEVMAddress
       (Example.chain (rejected (Fault "rpc")) "")
       (Example.chain (fulfilled None) "")
       (Example.preferences (fulfilled Example.book))
       (Example.preferences (fulfilled Example.book))
       Example.account Example.ETHEREUM true Example.schedule NameService_create
       0%nat (Fault "rpc") eq_refl schedule_complete eq_refl)
    as (_ & Hwin & Hsame).
  split.
  - apply (proj2 (Hwin eq_refl) 1%nat (Example.record' "Vitalik" 15003 address_book)).
    + reflexivity.
    + intros [|k] r' Hk; [discriminate | lia].
  - apply Hsame; [reflexivity | | reflexivity].
    intros [|[|[|k]]] Hk; done.
Defined.

(** An expired entry with another name is replaced, and the new name is
    announced. *)
Lemma lookUpName_stores_and_emits_witness :
  ∃ r,
    cachedResolvedNames
      (lookUpName Example.SECOND Example.normalizeEVMAddress
         (Example.chain (fulfilled (Some "vitalik.eth")) "")
         (Example.preferences (fulfilled Example.book))
         Example.account Example.ETHEREUM true Example.schedule
         (Example.service "old.eth" 4999)).2 !! Example.account = Some r
    ∧ emitted
        (lookUpName Example.SECOND Example.normalizeEVMAddress
           (Example.chain (fulfilled (Some "vitalik.eth")) "")
           (Example.preferences (fulfilled Example.book))
           Example.account Example.ETHEREUM true Example.schedule
           (Example.service "old.eth" 4999)).2
      = [resolvedName r].
Proof.
  destruct
    (lookUpName_stores_and_emits Example.SECOND Example.normalizeEVMAddress
       (Example.chain (fulfilled (Some "vitalik.eth")) "")
       (Example.preferences (fulfilled Example.book))
       Example.account Example.ETHEREUM true Example.schedule
       (Example.service "old.eth" 4999) "vitalik.eth"
       eq_refl schedule_complete eq_refl eq_refl)
    as (i & r & _ & _ & Hcache & Hemit).
  exists r. split.
  - rewrite Hcache. apply lookup_insert_eq.
  - rewrite Hemit. reflexivity.
Defined.

(** No strategy has a name for the account. *)
Lemma lookUpName_not_found_witness :
  cachedResolvedNames
    (lookUpName Example.SECOND Example.normalizeEVMAddress
       (Example.chain (fulfilled None) "") (Example.preferences (fulfilled ∅))
       Example.account Example.ETHEREUM false Example.schedule
       (Example.service "old.eth" 9000)).2
  = cachedResolvedNames (Example.service "old.eth" 9000)
  ∧ (lookUpName Example.SECOND Example.normalizeEVMAddress
       (Example.chain (fulfilled None) "") (Example.preferences (fulfilled ∅))
       Example.account Example.ETHEREUM false Example.schedule
       (Example.service "old.eth" 9000)).1
    = returns None.
Proof.
  destruct
    (lookUpName_not_found Example.SECOND Example.normalizeEVMAddress
       (Example.chain (fulfilled None) "") (Example.preferences (fulfilled ∅))
       Example.account Example.ETHEREUM false Example.schedule
       (Example.service "old.eth" 9000) eq_refl schedule_complete)
    as (Hcache & Hemit & Hret).
  - intros [|[|[|i]]] r; discriminate.
  - split; [exact Hcache | exact (Hret eq_refl)].
Defined.

(** The reverse lookup settles at 5002 and its record expires at 15002;
    cached, it is served up to that moment. *)
Lemma record_expires_after_ten_seconds_witness :
  resolved_expiresAt (Example.record "vitalik.eth" 15002) = 5002 + 10 * Example.SECOND
  ∧ ∀ t : Z,
      cached_name
        (lookUpName Example.SECOND Example.normalizeEVMAddress
           (Example.chain (fulfilled (Some "vitalik.eth")) "")
           (Example.preferences (fulfilled Example.book))
           Example.account Example.ETHEREUM true Example.schedule
           NameService_create).2
        Example.account t = Some "vitalik.eth"
      ↔ t ≤ 15002.
Proof.
  destruct
    (record_expires_after_ten_seconds Example.SECOND Example.normalizeEVMAddress
       (Example.chain (fulfilled (Some "vitalik.eth")) "")
       (Example.preferences (fulfilled Example.book))
       Example.account Example.ETHEREUM) as [Hrecord Hcached].
  split.
  - apply (Hrecord
             (ensAddressResolverFor Example.SECOND
                (Example.chain (fulfilled (Some "vitalik.eth")) ""))
             5002 (Example.record "vitalik.eth" 15002)).
    + apply list_elem_of_here.
    + reflexivity.
  - destruct (Hcached true Example.schedule NameService_create "vitalik.eth"
                eq_refl schedule_complete eq_refl eq_refl)
      as (i & r & Hi & Hfirst & _ & _ & _ & Hserved).
    destruct i as [|i].
    + exact Hserved.
    + exfalso.
      apply (Hfirst 0%nat (Example.record "vitalik.eth" 15002)); [lia | reflexivity].
Defined.

Lemma slow_complete : completion_order Example.slow ≡ₚ seq 0%nat 3%nat.
Proof. apply perm_skip. apply perm_swap. Qed.

(** C10 as stated fails: a freshly cached entry need not be valid for ten
    seconds, nor at all.  In a schedule whose clock goes forward, the
    reverse lookup settles at 5001 and wins, the address book settles at
    60000, and the entry that is stored at that moment expires at 15001:
    from then on it is not served. *)
Lemma cached_entry_expired_on_arrival :
  ¬ ∀ sched : Schedule,
      completion_order sched ≡ₚ seq 0%nat 3%nat →
      (∀ k : nat, now_start sched ≤ now_at sched k ≤ now_at sched (S k)) →
      ∀ t : Z,
        now_at sched 2 ≤ t ≤ now_at sched 2 + 10 * Example.SECOND →
        cached_name
          (lookUpName Example.SECOND Example.normalizeEVMAddress
             (Example.chain (fulfilled (Some "vitalik.eth")) "")
             (Example.preferences (fulfilled Example.book))
             Example.account Example.ETHEREUM true sched NameService_create).2
          Example.account t
        = Some "vitalik.eth".
Proof.
  intros H. specialize (H Example.slow slow_complete).
  assert (Hforward :
    ∀ k : nat, now_start Example.slow ≤ now_at Example.slow k
                                      ≤ now_at Example.slow (S k)).
  { intros k. unfold Example.slow. cbn [now_start now_at].
    destruct (Nat.ltb_spec k 2), (Nat.ltb_spec (S k) 2); lia. }
  specialize (H Hforward 60000).
  assert (Hwindow : now_at Example.slow 2 ≤ 60000
                                          ≤ now_at Example.slow 2 + 10 * Example.SECOND).
  { vm_compute. split; discriminate. }
  specialize (H Hwindow). vm_compute in H. discriminate H.
Qed.

(** An entry that expires at the very moment of the call is served. *)
Lemma lookUpName_cache_check_witness :
  lookUpName Example.SECOND Example.normalizeEVMAddress
    (Example.chain (fulfilled (Some "vitalik.eth")) "")
    (Example.preferences (fulfilled Example.book))
    Example.account Example.ETHEREUM true Example.schedule
    (Example.service "old.eth" 5000)
  = (returns (Some "old.eth"), Example.service "old.eth" 5000).
Proof.
  refine (proj1
    (lookUpName_cache_check Example.SECOND Example.normalizeEVMAddress
       (Example.chain (fulfilled (Some "vitalik.eth")) "")
       (Example.preferences (fulfilled Example.book))
       Example.account Example.ETHEREUM Example.schedule
       (Example.service "old.eth" 5000) (Example.record "old.eth" 5000)
       eq_refl eq_refl) _).
  simpl. lia.
Defined.

(** C5 as stated fails at the boundary: an entry whose [expiresAt] is the
    present moment, hence not in the future, is served from the cache and
    no strategy is started. *)
Lemma cache_entry_expiring_now_is_served :
  ¬ ∀ (sched : Schedule) (this : NameService) (r : ResolvedNameRecord),
      cachedResolvedNames this !! Example.account = Some r →
      ¬ (now_start sched < resolved_expiresAt r) →
      issued
        (lookUpName Example.SECOND Example.normalizeEVMAddress
           (Example.chain (fulfilled (Some "vitalik.eth")) "")
           (Example.preferences (fulfilled Example.book))
           Example.account Example.ETHEREUM true sched this).2
      ≠ issued this.
Proof.
  intros H.
  apply (H Example.schedule (Example.service "old.eth" 5000)
           (Example.record "old.eth" 5000)).
  - reflexivity.
  - simpl. lia.
  - reflexivity.
Qed.

(** The three cases of [lookUpEthereumAddress]. *)
Lemma lookUpEthereumAddress_spec_witness :
  lookUpEthereumAddress Example.normalizeEVMAddress Example.ETHEREUM
    (Example.chain (fulfilled None) "") "vitalik" NameService_create
  = (throws (Error "Only .eth names can be resolved today."), NameService_create)
  ∧ lookUpEthereumAddress Example.normalizeEVMAddress Example.ETHEREUM
      (Example.chain (fulfilled None) "") "odd.eth" NameService_create
    = (returns None, started NameService_create [call_resolveName "odd.eth"])
  ∧ (lookUpEthereumAddress Example.normalizeEVMAddress Example.ETHEREUM
       (Example.chain (fulfilled None) "") "vitalik.eth" NameService_create).1
    = returns (Some "0xd8da6bf26964af9d7eed9e03e53415d37aa96045").
Proof.
  split; [|split].
  - apply (proj1
      (lookUpEthereumAddress_spec Example.normalizeEVMAddress Example.ETHEREUM
         (Example.chain (fulfilled None) "") "vitalik" NameService_create)).
    intros H. apply eth_name_spec in H. vm_compute in H. discriminate H.
  - apply (proj2
      (lookUpEthereumAddress_spec Example.normalizeEVMAddress Example.ETHEREUM
         (Example.chain (fulfilled None) "") "odd.eth" NameService_create)
      (ex_intro _ "odd" eq_refl) (Some "vitalik") eq_refl).
    right. exists "vitalik". split; reflexivity.
  - destruct (proj2
      (lookUpEthereumAddress_spec Example.normalizeEVMAddress Example.ETHEREUM
         (Example.chain (fulfilled None) "") "vitalik.eth" NameService_create)
      (ex_intro _ "vitalik" eq_refl) (Some Example.account) eq_refl)
      as [_ Hfound].
    exact (proj1 (Hfound Example.account eq_refl eq_refl)).
Defined.

(** The avatar text record names a token contract and no token: the call
    gives the text record itself as a URL, and has fetched no metadata.
    With an empty segment for the contract and a token without metadata,
    the metadata has been asked for, and the call gives the text record
    again. *)
Lemma lookUpAvatar_erc721_fallback_witness :
  lookUpAvatar Example.SECOND Example.normalizeEVMAddress Example.sameEVMAddress
    Example.getTokenMetadata Example.URL_constructor
    (Example.chain (fulfilled (Some "vitalik.eth")) Example.reference)
    (Example.preferences (fulfilled Example.book))
    Example.account Example.ETHEREUM Example.schedule NameService_create
  = (returns
       (Some (URL.mk "eip155" None true
                "1/erc721:0xb7F7F6C52F2e2fdb1963Eab30438024864c313F6" None None)),
     started
       (lookUpName Example.SECOND Example.normalizeEVMAddress
          (Example.chain (fulfilled (Some "vitalik.eth")) Example.reference)
          (Example.preferences (fulfilled Example.book))
          Example.account Example.ETHEREUM true Example.schedule
          NameService_create).2
       [call_getResolver "vitalik.eth"; call_getAddress; call_getText "avatar"])
  ∧ lookUpAvatar Example.SECOND Example.normalizeEVMAddress Example.sameEVMAddress
      Example.getTokenMetadata Example.URL_constructor
      (Example.chain (fulfilled (Some "vitalik.eth")) "eip155:1/erc721:/7")
      (Example.preferences (fulfilled Example.book))
      Example.account Example.ETHEREUM Example.schedule NameService_create
    = (returns (Some (URL.mk "eip155" None true "1/erc721:/7" None None)),
       started
         (started
            (lookUpName Example.SECOND Example.normalizeEVMAddress
               (Example.chain (fulfilled (Some "vitalik.eth")) "eip155:1/erc721:/7")
               (Example.preferences (fulfilled Example.book))
               Example.account Example.ETHEREUM true Example.schedule
               NameService_create).2
            [call_getResolver "vitalik.eth"; call_getAddress; call_getText "avatar"])
         [call_getTokenMetadata "" 7]).
Proof.
  split.
  - refine (proj1 (proj2
      (lookUpAvatar_erc721_fallback Example.SECOND Example.normalizeEVMAddress
         Example.sameEVMAddress Example.getTokenMetadata Example.URL_constructor
         (Example.chain (fulfilled (Some "vitalik.eth")) Example.reference)
         (Example.preferences (fulfilled Example.book))
         Example.account Example.ETHEREUM Example.schedule NameService_create
         (lookUpName Example.SECOND Example.normalizeEVMAddress
            (Example.chain (fulfilled (Some "vitalik.eth")) Example.reference)
            (Example.preferences (fulfilled Example.book))
            Example.account Example.ETHEREUM true Example.schedule
            NameService_create).2
         "vitalik.eth" (Example.resolver Example.reference) (Some Example.account)
         Example.reference
         eq_refl _ _ eq_refl eq_refl eq_refl eq_refl _ eq_refl _)) _).
    + reflexivity.
    + discriminate.
    + discriminate.
    + reflexivity.
    + reflexivity.
  - refine (proj2 (proj2 (proj2
      (lookUpAvatar_erc721_fallback Example.SECOND Example.normalizeEVMAddress
         Example.sameEVMAddress Example.getTokenMetadata Example.URL_constructor
         (Example.chain (fulfilled (Some "vitalik.eth")) "eip155:1/erc721:/7")
         (Example.preferences (fulfilled Example.book))
         Example.account Example.ETHEREUM Example.schedule NameService_create
         (lookUpName Example.SECOND Example.normalizeEVMAddress
            (Example.chain (fulfilled (Some "vitalik.eth")) "eip155:1/erc721:/7")
            (Example.preferences (fulfilled Example.book))
            Example.account Example.ETHEREUM true Example.schedule
            NameService_create).2
         "vitalik.eth" (Example.resolver "eip155:1/erc721:/7") (Some Example.account)
         "eip155:1/erc721:/7"
         eq_refl _ _ eq_refl eq_refl eq_refl eq_refl _ eq_refl _))
      "" "7" eq_refl eq_refl) 7 None eq_refl eq_refl eq_refl).
    + reflexivity.
    + discriminate.
    + discriminate.
    + reflexivity.
Defined.

(** C6 as stated fails: for an ERC-721 reference without token id, and for
    one whose token has no metadata, the call does not answer "not found"
    but gives the reference itself as a URL. *)
Lemma lookUpAvatar_reference_without_token_id :
  (¬ ∀ avatar : string,
       erc721_reference avatar = true →
       JS.split (λ c, bool_decide (c ∈ [":"; "/"]%char)) avatar !! 4%nat = None →
       (lookUpAvatar Example.SECOND Example.normalizeEVMAddress Example.sameEVMAddress
          Example.getTokenMetadata
          Example.URL_constructor
          (Example.chain (fulfilled (Some "vitalik.eth")) avatar)
          (Example.preferences (fulfilled Example.book))
          Example.account Example.ETHEREUM Example.schedule NameService_create).1
       = returns None)
  ∧ (¬ ∀ (avatar erc721Address nftID : string) (tokenID : Z),
         erc721_reference avatar = true →
         JS.split (λ c, bool_decide (c ∈ [":"; "/"]%char)) avatar !! 3%nat
         = Some erc721Address →
         JS.split (λ c, bool_decide (c ∈ [":"; "/"]%char)) avatar !! 4%nat
         = Some nftID →
         JS.BigInt nftID = Some tokenID →
         Example.getTokenMetadata
           (Example.provider (fulfilled (Some "vitalik.eth")) avatar)
           erc721Address tokenID
         = fulfilled None →
         (lookUpAvatar Example.SECOND Example.normalizeEVMAddress
            Example.sameEVMAddress Example.getTokenMetadata
            Example.URL_constructor
            (Example.chain (fulfilled (Some "vitalik.eth")) avatar)
            (Example.preferences (fulfilled Example.book))
            Example.account Example.ETHEREUM Example.schedule NameService_create).1
         = returns None).
Proof.
  split.
  - intros H. specialize (H Example.reference eq_refl eq_refl).
    vm_compute in H. discriminate H.
  - intros H.
    specialize (H (Example.reference +:+ "/7")
                  "0xb7F7F6C52F2e2fdb1963Eab30438024864c313F6" "7" 7
                  eq_refl eq_refl eq_refl eq_refl eq_refl).
    vm_compute in H. discriminate H.
Qed.

(** C1: the code at the vectors of the specification.  The [protocol]
    getter ends with a colon, no case of the [switch] is ever taken, and
    the URIs of both storage schemes come back as they are. *)
Theorem storageGatewayURL_vectors :
  URL.href ∘ storageGatewayURL <$> URL.parse "ipfs://CID/path?x=1#y"
  = Some "ipfs://CID/path?x=1#y"
  ∧ URL.href ∘ storageGatewayURL <$> URL.parse "ar://TXID" = Some "ar://TXID"
  ∧ URL.href ∘ storageGatewayURL <$> URL.parse "https://example.com/a"
    = Some "https://example.com/a"
  ∧ ∀ url, storageGatewayURL url = url.
Proof.
  split; [reflexivity|]. split; [reflexivity|]. split; [reflexivity|].
  apply storageGatewayURL_id.
Qed.

(** C9: the code on two spellings of one address.  The name is cached under
    the spelling of the first call; the second call, with the other
    spelling, finds nothing in the cache, starts the strategies again and
    stores a second entry. *)
Theorem lookUpName_keys_are_not_normalized :
  let lookUp :=
    lookUpName Example.SECOND Example.normalizeEVMAddress
      (Example.chain (fulfilled (Some "vitalik.eth")) "")
      (Example.preferences (fulfilled Example.book)) in
  let upper := Example.account in
  let lower := JS.toLowerCase Example.account in
  let this1 := (lookUp upper Example.ETHEREUM true Example.schedule NameService_create).2 in
  let this2 := (lookUp lower Example.ETHEREUM true Example.schedule this1).2 in
  Example.normalizeEVMAddress upper = Example.normalizeEVMAddress lower
  ∧ cached_name this1 upper 5000 = Some "vitalik.eth"
  ∧ cached_name this1 lower 5000 = None
  ∧ issued this2
    = issued this1 ++ [call_lookupAddress lower; call_getAddressBook;
                       call_getKnownContractNames]
  ∧ size (cachedResolvedNames this2) = 2%nat.
Proof. vm_compute. repeat split. Qed.

(** ** The further properties on the concrete setting *)

Lemma later_complete : completion_order Example.later ≡ₚ seq 0%nat 3%nat.
Proof. reflexivity. Qed.

Lemma lookups_need_the_primary_network_witness :
  lookUpName Example.SECOND Example.normalizeEVMAddress
    (Example.chain (fulfilled (Some "vitalik.eth")) "")
    (Example.preferences (fulfilled Example.book))
    Example.account Example.goerli true Example.schedule NameService_create
  = (throws (Error "Only Ethereum mainnet is supported."), NameService_create).
Proof.
  refine (proj1
    (lookups_need_the_primary_network Example.SECOND Example.normalizeEVMAddress
       Example.sameEVMAddress Example.getTokenMetadata
       Example.URL_constructor
       (Example.chain (fulfilled (Some "vitalik.eth")) "")
       (Example.preferences (fulfilled Example.book))
       Example.account Example.goerli true Example.schedule NameService_create _)).
  discriminate.
Defined.

(** The reverse lookup wins and settles at 5002, after the known-contract
    table: a call at 15002 is served from the cache. *)
Lemma lookUpName_then_served_from_cache_witness :
  lookUpName Example.SECOND Example.normalizeEVMAddress
    (Example.chain (fulfilled (Some "vitalik.eth")) "")
    (Example.preferences (fulfilled Example.book))
    Example.account Example.ETHEREUM true
    {| now_start := 15002; completion_order := [0; 1; 2]%nat; now_at := λ _, 15003 |}
    (lookUpName Example.SECOND Example.normalizeEVMAddress
       (Example.chain (fulfilled (Some "vitalik.eth")) "")
       (Example.preferences (fulfilled Example.book))
       Example.account Example.ETHEREUM true Example.schedule
       NameService_create).2
  = (returns (Some "vitalik.eth"),
     (lookUpName Example.SECOND Example.normalizeEVMAddress
        (Example.chain (fulfilled (Some "vitalik.eth")) "")
        (Example.preferences (fulfilled Example.book))
        Example.account Example.ETHEREUM true Example.schedule
        NameService_create).2).
Proof.
  destruct
    (lookUpName_then_served_from_cache Example.SECOND
       Example.normalizeEVMAddress
       (Example.chain (fulfilled (Some "vitalik.eth")) "")
       (Example.preferences (fulfilled Example.book))
       Example.account Example.ETHEREUM true Example.schedule
       NameService_create "vitalik.eth"
       eq_refl schedule_complete eq_refl eq_refl)
    as (i & r & Hi & Hfirst & _ & Hserved).
  destruct i as [|i].
  - apply (proj1 (Hserved _)). vm_compute. discriminate.
  - exfalso.
    apply (Hfirst 0%nat (Example.record "vitalik.eth" 15002)); [lia | reflexivity].
Defined.

Lemma lookUpName_again_is_silent_witness :
  emitted
    (lookUpName Example.SECOND Example.normalizeEVMAddress
       (Example.chain (fulfilled (Some "vitalik.eth")) "")
       (Example.preferences (fulfilled Example.book))
       Example.account Example.ETHEREUM false Example.later
       (lookUpName Example.SECOND Example.normalizeEVMAddress
          (Example.chain (fulfilled (Some "vitalik.eth")) "")
          (Example.preferences (fulfilled Example.book))
          Example.account Example.ETHEREUM true Example.schedule
          NameService_create).2).2
  = emitted
      (lookUpName Example.SECOND Example.normalizeEVMAddress
         (Example.chain (fulfilled (Some "vitalik.eth")) "")
         (Example.preferences (fulfilled Example.book))
         Example.account Example.ETHEREUM true Example.schedule
         NameService_create).2.
Proof.
  exact (proj1 (proj2
    (lookUpName_again_is_silent Example.SECOND Example.normalizeEVMAddress
       (Example.chain (fulfilled (Some "vitalik.eth")) "")
       (Example.preferences (fulfilled Example.book))
       Example.account Example.ETHEREUM true false Example.schedule Example.later
       NameService_create "vitalik.eth"
       eq_refl schedule_complete later_complete eq_refl eq_refl eq_refl))).
Defined.

Lemma lookUpName_waits_for_every_strategy_witness :
  (lookUpName Example.SECOND Example.normalizeEVMAddress
     (Example.chain (fulfilled (Some "vitalik.eth")) "")
     (Example.preferences (fulfilled Example.book))
     Example.account Example.ETHEREUM true Example.stalled NameService_create).1
  = never.
Proof.
  rewrite
    (lookUpName_waits_for_every_strategy Example.SECOND Example.normalizeEVMAddress
       (Example.chain (fulfilled (Some "vitalik.eth")) "")
       (Example.preferences (fulfilled Example.book))
       Example.account Example.ETHEREUM true Example.stalled NameService_create
       1%nat eq_refl eq_refl).
  - reflexivity.
  - lia.
  - unfold Example.stalled. simpl. intros Hin.
    apply elem_of_cons in Hin as [Heq|Hin]; [discriminate|].
    apply elem_of_cons in Hin as [Heq|Hin]; [discriminate|].
    by apply elem_of_nil in Hin.
Defined.

Lemma lookUpAvatar_frame_witness :
  emitted
    (lookUpAvatar Example.SECOND Example.normalizeEVMAddress Example.sameEVMAddress
       Example.getTokenMetadata
       Example.URL_constructor
       (Example.chain (fulfilled (Some "vitalik.eth")) Example.token_reference)
       (Example.preferences (fulfilled Example.book))
       Example.account Example.ETHEREUM Example.schedule NameService_create).2
  = emitted
      (lookUpName Example.SECOND Example.normalizeEVMAddress
         (Example.chain (fulfilled (Some "vitalik.eth")) Example.token_reference)
         (Example.preferences (fulfilled Example.book))
         Example.account Example.ETHEREUM true Example.schedule
         NameService_create).2.
Proof.
  exact (proj1 (proj2
    (lookUpAvatar_frame Example.SECOND Example.normalizeEVMAddress
       Example.sameEVMAddress Example.getTokenMetadata
       Example.URL_constructor
       (Example.chain (fulfilled (Some "vitalik.eth")) Example.token_reference)
       (Example.preferences (fulfilled Example.book))
       Example.account Example.ETHEREUM Example.schedule NameService_create
       eq_refl))).
Defined.

(** On the sample chain the avatar lookup for the account gets as far as
    the text record, whatever the record is. *)
Lemma example_reads_text_record (avatar : string) (this : NameService) :
  this = NameService_create
  ∨ (∃ key url, this = Example.service_with_avatar key url) →
  reads_text_record Example.SECOND Example.normalizeEVMAddress
    Example.sameEVMAddress
    (Example.chain (fulfilled (Some "vitalik.eth")) avatar)
    (Example.preferences (fulfilled Example.book))
    Example.account Example.ETHEREUM Example.schedule this
    (lookUpName Example.SECOND Example.normalizeEVMAddress
       (Example.chain (fulfilled (Some "vitalik.eth")) avatar)
       (Example.preferences (fulfilled Example.book))
       Example.account Example.ETHEREUM true Example.schedule this).2
    "vitalik.eth" (Some avatar).
Proof.
  intros Hthis. split; [reflexivity|]. split.
  { destruct Hthis as [->|(key & url & ->)]; reflexivity. }
  split; [discriminate|].
  exists (Example.resolver avatar), (Some Example.account).
  repeat split; reflexivity.
Qed.

Lemma lookUpAvatar_not_found_witness :
  lookUpAvatar Example.SECOND Example.normalizeEVMAddress Example.sameEVMAddress
    Example.getTokenMetadata
    Example.URL_constructor
    (Example.chain (fulfilled None) "") (Example.preferences (fulfilled ∅))
    Example.account Example.ETHEREUM Example.schedule NameService_create
  = (returns None,
     started NameService_create
       [call_lookupAddress Example.account; call_getAddressBook;
        call_getKnownContractNames]).
Proof.
  refine (proj1
    (lookUpAvatar_not_found Example.SECOND Example.normalizeEVMAddress
       Example.sameEVMAddress Example.getTokenMetadata
       Example.URL_constructor
       (Example.chain (fulfilled None) "") (Example.preferences (fulfilled ∅))
       Example.account Example.ETHEREUM Example.schedule NameService_create
       None _ eq_refl eq_refl) eq_refl).
Defined.

Lemma lookUpAvatar_plain_uri_witness :
  (lookUpAvatar Example.SECOND Example.normalizeEVMAddress Example.sameEVMAddress
     Example.getTokenMetadata
     Example.URL_constructor
     (Example.chain (fulfilled (Some "vitalik.eth")) "https://example.com/a")
     (Example.preferences (fulfilled Example.book))
     Example.account Example.ETHEREUM Example.schedule NameService_create).1
  = returns (Some (URL.mk "https" (Some "example.com") false "/a" None None)).
Proof.
  rewrite
    (lookUpAvatar_plain_uri Example.SECOND Example.normalizeEVMAddress
       Example.sameEVMAddress Example.getTokenMetadata
       Example.URL_constructor
       (Example.chain (fulfilled (Some "vitalik.eth")) "https://example.com/a")
       (Example.preferences (fulfilled Example.book))
       Example.account Example.ETHEREUM Example.schedule NameService_create
       _ "vitalik.eth" "https://example.com/a"
       (example_reads_text_record _ _ (or_introl eq_refl))).
  - reflexivity.
  - discriminate.
  - reflexivity.
Defined.

Lemma lookUpAvatar_cached_reference_witness :
  (lookUpAvatar Example.SECOND Example.normalizeEVMAddress Example.sameEVMAddress
     Example.getTokenMetadata
     Example.URL_constructor
     (Example.chain (fulfilled (Some "vitalik.eth")) Example.token_reference)
     (Example.preferences (fulfilled Example.book))
     Example.account Example.ETHEREUM Example.schedule
     (Example.service_with_avatar (JS.toLowerCase Example.token_reference)
        ipfsGateway)).1
  = returns (Some ipfsGateway).
Proof.
  rewrite
    (lookUpAvatar_cached_reference Example.SECOND Example.normalizeEVMAddress
       Example.sameEVMAddress Example.getTokenMetadata
       Example.URL_constructor
       (Example.chain (fulfilled (Some "vitalik.eth")) Example.token_reference)
       (Example.preferences (fulfilled Example.book))
       Example.account Example.ETHEREUM Example.schedule
       (Example.service_with_avatar (JS.toLowerCase Example.token_reference)
          ipfsGateway)
       _ "vitalik.eth" Example.token_reference ipfsGateway
       (example_reads_text_record _ _
          (or_intror (ex_intro _ _ (ex_intro _ _ eq_refl))))).
  - reflexivity.
  - discriminate.
  - reflexivity.
  - reflexivity.
Defined.

Lemma lookUpAvatar_token_image_witness :
  ∃ this',
    lookUpAvatar Example.SECOND Example.normalizeEVMAddress Example.sameEVMAddress
      Example.getTokenMetadata
      Example.URL_constructor
      (Example.chain (fulfilled (Some "vitalik.eth")) Example.token_reference)
      (Example.preferences (fulfilled Example.book))
      Example.account Example.ETHEREUM Example.schedule NameService_create
    = (returns (Some (URL.mk "https" (Some "example.com") false "/a" None None)),
       this')
    ∧ cachedEIP155AvatarURLs this' !! JS.toLowerCase Example.token_reference = None.
Proof.
  destruct
    (lookUpAvatar_token_image Example.SECOND Example.normalizeEVMAddress
       Example.sameEVMAddress Example.getTokenMetadata
       Example.URL_constructor
       (Example.chain (fulfilled (Some "vitalik.eth")) Example.token_reference)
       (Example.preferences (fulfilled Example.book))
       Example.account Example.ETHEREUM Example.schedule NameService_create
       _ "vitalik.eth" Example.token_reference
       "0xb7F7F6C52F2e2fdb1963Eab30438024864c313F6" "2430"
       "https://example.com/a" 2430
       {| image := Some "https://example.com/a" |}
       (URL.mk "https" (Some "example.com") false "/a" None None)
       (example_reads_text_record _ _ (or_introl eq_refl)))
    as (this' & Hrun & _ & Hkey & _).
  - discriminate.
  - reflexivity.
  - reflexivity.
  - reflexivity.
  - reflexivity.
  - reflexivity.
  - reflexivity.
  - reflexivity.
  - reflexivity.
  - exists this'. split; [exact Hrun|]. rewrite Hkey. reflexivity.
Defined.

Lemma lookUpAvatar_token_failures_witness :
  (lookUpAvatar Example.SECOND Example.normalizeEVMAddress Example.sameEVMAddress
     Example.getTokenMetadata
     Example.URL_constructor
     (Example.chain (fulfilled (Some "vitalik.eth")) (Example.reference +:+ "/abc"))
     (Example.preferences (fulfilled Example.book))
     Example.account Example.ETHEREUM Example.schedule NameService_create).1
  = throws SyntaxError.
Proof.
  destruct
    (lookUpAvatar_token_failures Example.SECOND Example.normalizeEVMAddress
       Example.sameEVMAddress Example.getTokenMetadata
       Example.URL_constructor
       (Example.chain (fulfilled (Some "vitalik.eth")) (Example.reference +:+ "/abc"))
       (Example.preferences (fulfilled Example.book))
       Example.account Example.ETHEREUM Example.schedule NameService_create
       _ "vitalik.eth" (Example.reference +:+ "/abc")
       "0xb7F7F6C52F2e2fdb1963Eab30438024864c313F6" "abc"
       (example_reads_text_record _ _ (or_introl eq_refl)))
    as [Hsyntax _].
  - discriminate.
  - reflexivity.
  - reflexivity.
  - reflexivity.
  - reflexivity.
  - rewrite (Hsyntax eq_refl). reflexivity.
Defined.

Lemma subscribers_do_not_throw_witness :
  onNewAccountToTrack Example.SECOND Example.normalizeEVMAddress
    (Example.chain (fulfilled (Some "vitalik.eth")) "")
    (Example.preferences (fulfilled Example.book))
    {| address := Example.account; network := Example.goerli |}
    Example.schedule NameService_create
  = (returns (Some (log_error "Error fetching ENS name for address" Example.account
                      (Error "Only Ethereum mainnet is supported."))),
     NameService_create).
Proof.
  exact (proj1 (proj2 (proj2
    (subscribers_do_not_throw Example.SECOND Example.normalizeEVMAddress
       Example.sameEVMAddress Example.getTokenMetadata
       Example.URL_constructor
       (Example.chain (fulfilled (Some "vitalik.eth")) "")
       (Example.preferences (fulfilled Example.book))
       {| address := Example.account; network := Example.goerli |}
       (Example.record "vitalik.eth" 15002)
       Example.schedule NameService_create)))
    (Error "Only Ethereum mainnet is supported.") eq_refl).
Defined.

Lemma resolvedName_subscriber_does_not_loop_witness :
  ∃ r,
    cachedResolvedNames
      (lookUpName Example.SECOND Example.normalizeEVMAddress
         (Example.chain (fulfilled (Some "vitalik.eth")) Example.token_reference)
         (Example.preferences (fulfilled Example.book))
         Example.account Example.ETHEREUM true Example.schedule
         NameService_create).2 !! Example.account = Some r
    ∧ cachedResolvedNames
        (onResolvedName Example.SECOND Example.normalizeEVMAddress
           Example.sameEVMAddress Example.getTokenMetadata
           Example.URL_constructor
           (Example.chain (fulfilled (Some "vitalik.eth")) Example.token_reference)
           (Example.preferences (fulfilled Example.book))
           r Example.later
           (lookUpName Example.SECOND Example.normalizeEVMAddress
              (Example.chain (fulfilled (Some "vitalik.eth")) Example.token_reference)
              (Example.preferences (fulfilled Example.book))
              Example.account Example.ETHEREUM true Example.schedule
              NameService_create).2).2
      = cachedResolvedNames
          (lookUpName Example.SECOND Example.normalizeEVMAddress
             (Example.chain (fulfilled (Some "vitalik.eth")) Example.token_reference)
             (Example.preferences (fulfilled Example.book))
             Example.account Example.ETHEREUM true Example.schedule
             NameService_create).2.
Proof.
  destruct
    (resolvedName_subscriber_does_not_loop Example.SECOND
       Example.normalizeEVMAddress Example.sameEVMAddress Example.getTokenMetadata
       Example.URL_constructor
       (Example.chain (fulfilled (Some "vitalik.eth")) Example.token_reference)
       (Example.preferences (fulfilled Example.book))
       Example.account Example.ETHEREUM true Example.schedule Example.later
       NameService_create "vitalik.eth"
       eq_refl schedule_complete eq_refl eq_refl)
    as (r & Hr & Hrun).
  exists r. split; [exact Hr|].
  apply Hrun.
  assert (Hrecord : Some r = Some (Example.record "vitalik.eth" 15002)).
  { rewrite <- Hr. reflexivity. }
  injection Hrecord as ->. simpl. lia.
Defined.

Lemma table_strategies_normalize_witness :
  and_then (fmap resolved_name)
    (resume
       (addressBookResolverFor Example.SECOND Example.normalizeEVMAddress
          (Example.preferences (fulfilled Example.book))
          {| address := Example.account; network := Example.ETHEREUM |}) 1)
  = and_then (fmap resolved_name)
      (resume
         (addressBookResolverFor Example.SECOND Example.normalizeEVMAddress
            (Example.preferences (fulfilled Example.book))
            {| address := JS.toLowerCase Example.account;
               network := Example.ETHEREUM |}) 2).
Proof.
  refine (proj1
    (table_strategies_normalize Example.SECOND Example.normalizeEVMAddress
       (Example.preferences (fulfilled Example.book))
       (addressBookResolverFor Example.SECOND Example.normalizeEVMAddress
          (Example.preferences (fulfilled Example.book)))
       Example.account (JS.toLowerCase Example.account) Example.ETHEREUM 1 2 _ _)).
  - apply list_elem_of_here.
  - reflexivity.
Defined.

Lemma lookUpEthereumAddress_frame_witness :
  lookUpEthereumAddress Example.normalizeEVMAddress Example.ETHEREUM
    Example.faulty_chain "vitalik.eth" NameService_create
  = (throws (Fault "rpc"), started NameService_create [call_resolveName "vitalik.eth"]).
Proof.
  exact (proj2 (proj2 (proj2
    (lookUpEthereumAddress_frame Example.normalizeEVMAddress Example.ETHEREUM
       Example.faulty_chain "vitalik.eth" NameService_create)))
    (Fault "rpc") eq_refl eq_refl).
Defined.

Lemma lookUpName_fails_on_the_network_only_witness :
  chainID Example.goerli ≠ "1".
Proof.
  refine (proj1
    (lookUpName_fails_on_the_network_only Example.SECOND
       Example.normalizeEVMAddress
       (Example.chain (fulfilled (Some "vitalik.eth")) "")
       (Example.preferences (fulfilled Example.book))
       Example.account Example.goerli true Example.schedule NameService_create
       (Error "Only Ethereum mainnet is supported.") _ eq_refl)).
  split; [|reflexivity].
  intros Hin. unfold Object_prototype in Hin.
  repeat (apply elem_of_cons in Hin as [Heq|Hin]; [discriminate Heq|]).
  by apply elem_of_nil in Hin.
Defined.

Lemma ens_strategy_spec_witness :
  ∃ provider name,
    providerForNetwork (Example.chain (fulfilled (Some "vitalik.eth")) "")
      Example.ETHEREUM = Some provider
    ∧ lookupAddress provider Example.account = fulfilled (Some name)
    ∧ (String.length name ≤ 253)%nat
    ∧ domain_name name = true
    ∧ Example.record "vitalik.eth" 15002
      = {| from_addressNetwork :=
             {| address := Example.account; network := Example.ETHEREUM |};
           resolved_name := name;
           resolved_expiresAt := 5002 + 10 * Example.SECOND;
           system := ENS |}.
Proof.
  exact (proj1 (proj1
    (ens_strategy_spec Example.SECOND
       (Example.chain (fulfilled (Some "vitalik.eth")) "")
       Example.account Example.ETHEREUM 5002
       (fulfilled (Some (Example.record "vitalik.eth" 15002))) eq_refl)
    (Example.record "vitalik.eth" 15002)) eq_refl).
Defined.

(** The built-in contract, in another spelling of its address, when the
    reverse lookup has no name. *)
Lemma lookUpName_with_repository_preferences_witness :
  (lookUpName Example.SECOND Example.normalizeEVMAddress
     (Example.chain (fulfilled None) "")
     (PreferenceService_create Example.normalizeEVMAddress)
     "0xDEF1C0DED9BEC7F1A1670819833240F027B25EFF" Example.ETHEREUM true
     Example.schedule NameService_create).1
  = returns (Some "0x Router").
Proof.
  rewrite
    (lookUpName_with_repository_preferences Example.SECOND
       Example.normalizeEVMAddress (Example.chain (fulfilled None) "")
       "0xDEF1C0DED9BEC7F1A1670819833240F027B25EFF" Example.ETHEREUM true
       Example.schedule NameService_create eq_refl schedule_complete eq_refl).
  reflexivity.
Defined.

Lemma changeURLProtocolAndBase_keeps_witness :
  URL.scheme
    (changeURLProtocolAndBase
       (URL.mk "ipfs" (Some "CID") false "/path" (Some "x=1") (Some "y"))
       ipfsGateway)
  = "ipfs".
Proof.
  refine (proj1 (proj2 (proj2
    (changeURLProtocolAndBase_keeps
       (URL.mk "ipfs" (Some "CID") false "/path" (Some "x=1") (Some "y"))
       ipfsGateway)) eq_refl _)).
  apply list_elem_of_here.
Defined.
